(** * Elevator dispatch simulation (src/main.cpp): a shallow embedding

    The program is a single C++ translation unit: a state pattern for the
    motion of one elevator, an elevator with a FIFO queue of floors, a
    nearest-elevator selection strategy, a manager with a list of
    observers, and the floor panels that implement the observer interface.

    Modelling choices, all read off the source:
    - [int] is a 32-bit two's complement integer, carried as a [Z] with the
      wrap-around of the arithmetic written out ([int_wrap]);
    - objects live in a store ([World]): elevators and panels are addressed
      by their position in it, and a C++ pointer is such an address;
    - every line the program writes to [cout] is an [Output] value, and a
      method is a command that returns the new store together with the
      lines it wrote, in order;
    - the only loop, in [Elevator::simulateMovement], takes fuel. *)

From stdpp Require Import base list strings.
From Stdlib Require Import ZArith Lia.

Local Open Scope Z_scope.

(** ** Machine integers *)

Module Int.

Definition INT_MIN : Z := - 2 ^ 31.
Definition INT_MAX : Z := 2 ^ 31 - 1.

Definition int_range (z : Z) : Prop := INT_MIN <= z <= INT_MAX.

Definition int_wrap (z : Z) : Z := (z + 2 ^ 31) mod 2 ^ 32 - 2 ^ 31.

(** [a - b], [a + 1], [a - 1] and [abs a] on [int]. *)
Definition sub (a b : Z) : Z := int_wrap (a - b).
Definition incr (a : Z) : Z := int_wrap (a + 1).
Definition decr (a : Z) : Z := int_wrap (a - 1).
Definition abs (a : Z) : Z := int_wrap (Z.abs a).

End Int.

(** ** Enumerations *)

Inductive Direction : Type := UP | DOWN.

Inductive StateType : Type := IDLE | MOVING_UP | MOVING_DOWN.

#[global] Instance Direction_eq_dec : EqDecision Direction.
Proof. solve_decision. Defined.

#[global] Instance StateType_eq_dec : EqDecision StateType.
Proof. solve_decision. Defined.

(** [getStateName]: the [default] label of the [switch] answers values
    outside the enumeration, which [StateType] does not hold. *)
Definition getStateName (state : StateType) : string :=
  match state with
  | IDLE => "IDLE"
  | MOVING_UP => "MOVING_UP"
  | MOVING_DOWN => "MOVING_DOWN"
  end.

(** ** Console output

    One constructor per line the program writes, with the values that the
    line carries. *)

Inductive Output : Type :=
  | ManagerCreated                                  (* "Elevator Manager created" *)
  | ElevatorCreated (id floor : Z)                  (* "Elevator i created at floor f" *)
  | PanelCreated (floorNum : Z)                     (* "Panel created at floor f" *)
  | PanelRequesting (panelFloor : Z)                (* "Panel at floor f requesting elevator" *)
  | RequestReceived (floor : Z)                     (* "Request received for floor f" *)
  | ElevatorReceived (id floor : Z)                 (* "Elevator i received request for floor f" *)
  | ElevatorProcessing (id targetFloor : Z)         (* "Elevator i processing request for floor f" *)
  | ElevatorAtFloor (id floor : Z)                  (* "Elevator i is now at floor f" *)
  | StateChanged (id : Z) (newState : StateType)    (* "Elevator i changed state to S" *)
  | PanelUpdated (panelFloor floor : Z) (state : StateType).
                                                    (* "Panel at floor p updated: Elevator at floor f (S)" *)

(** ** Commands

    A command runs on a store of type [S]; it finishes with a value, the
    new store and the lines written, or it runs out of fuel, or it does
    something the language leaves undefined (an empty queue popped, a
    pointer that designates no object). *)

Inductive res (A : Type) : Type :=
  | Done (a : A)
  | OutOfFuel
  | Undefined.
Arguments Done {A} a.
Arguments OutOfFuel {A}.
Arguments Undefined {A}.

Definition Cmd (S A : Type) : Type := S -> res (A * S * list Output).

Section Commands.
Context {S : Type}.

Definition cmd_ret {A} (a : A) : Cmd S A := fun s => Done (a, s, []).

Definition cmd_bind {A B} (k : A -> Cmd S B) (c : Cmd S A) : Cmd S B :=
  fun s =>
    match c s with
    | Done (a, s1, o1) =>
        match k a s1 with
        | Done (b, s2, o2) => Done (b, s2, o1 ++ o2)
        | OutOfFuel => OutOfFuel
        | Undefined => Undefined
        end
    | OutOfFuel => OutOfFuel
    | Undefined => Undefined
    end.

Definition get : Cmd S S := fun s => Done (s, s, []).
Definition put (s : S) : Cmd S unit := fun _ => Done (tt, s, []).
Definition modify (f : S -> S) : Cmd S unit := fun s => Done (tt, f s, []).
Definition print (o : Output) : Cmd S unit := fun s => Done (tt, s, [o]).
Definition out_of_fuel {A} : Cmd S A := fun _ => OutOfFuel.
Definition undefined {A} : Cmd S A := fun _ => Undefined.
Definition skip : Cmd S unit := cmd_ret tt.
End Commands.

#[global] Instance Cmd_ret {S} : MRet (Cmd S) := @cmd_ret S.
#[global] Instance Cmd_bind {S} : MBind (Cmd S) := @cmd_bind S.

(** ** The elevator and its state objects *)

(** [class Elevator]: the [State*] member is carried as the dynamic type of
    the state object it points to, which is all a state object holds besides
    the back pointer to its elevator; [floorQueue] is a [std::queue<int>],
    front at the head of the list.  The program creates one manager, so the
    [manager] back pointer, which no method of [Elevator] reads, carries no
    information and is left out. *)
Record Elevator : Type := mkElevator {
  id : Z;
  currentFloor : Z;
  state : StateType;
  floorQueue : list Z
}.

Definition set_currentFloor (f : Z) (e : Elevator) : Elevator :=
  mkElevator (id e) f (state e) (floorQueue e).
Definition set_state (s : StateType) (e : Elevator) : Elevator :=
  mkElevator (id e) (currentFloor e) s (floorQueue e).
Definition set_floorQueue (q : list Z) (e : Elevator) : Elevator :=
  mkElevator (id e) (currentFloor e) (state e) q.

(** [Elevator::Elevator(int id, ElevatorManager* mgr)] *)
Definition Elevator_new (i : Z) : Elevator * list Output :=
  (mkElevator i 1 IDLE [], [ElevatorCreated i 1]).

(** [Elevator::setState] *)
Definition Elevator_setState (newState : StateType) : Cmd Elevator unit :=
  e ← get;
  modify (set_state newState);;
  print (StateChanged (id e) newState).

(** [state->moveUp()], by the dynamic type of the state object:
    [IdleState::moveUp], [MovingUpState::moveUp], [MovingDownState::moveUp]. *)
Definition State_moveUp : Cmd Elevator unit :=
  e ← get;
  match state e with
  | IDLE => Elevator_setState MOVING_UP
  | MOVING_UP => skip
  | MOVING_DOWN => Elevator_setState MOVING_UP
  end.

(** [state->moveDown()] *)
Definition State_moveDown : Cmd Elevator unit :=
  e ← get;
  match state e with
  | IDLE => Elevator_setState MOVING_DOWN
  | MOVING_UP => Elevator_setState MOVING_DOWN
  | MOVING_DOWN => skip
  end.

(** [state->stop()] *)
Definition State_stop : Cmd Elevator unit :=
  e ← get;
  match state e with
  | IDLE => skip
  | MOVING_UP => Elevator_setState IDLE
  | MOVING_DOWN => Elevator_setState IDLE
  end.

(** [floorQueue.pop()]: undefined on an empty queue. *)
Definition queue_pop : Cmd Elevator unit :=
  e ← get;
  match floorQueue e with
  | [] => undefined
  | _ :: q => put (set_floorQueue q e)
  end.

(** The [while] loop of [Elevator::simulateMovement]. *)
Fixpoint simulateMovement_loop (fuel : nat) (targetFloor : Z) : Cmd Elevator unit :=
  e ← get;
  if bool_decide (currentFloor e ≠ targetFloor) then
    match fuel with
    | O => out_of_fuel
    | S fuel' =>
        (if bool_decide (targetFloor > currentFloor e)
         then modify (set_currentFloor (Int.incr (currentFloor e)))
         else modify (set_currentFloor (Int.decr (currentFloor e))));;
        e' ← get;
        print (ElevatorAtFloor (id e') (currentFloor e'));;
        simulateMovement_loop fuel' targetFloor
    end
  else skip.

(** [Elevator::simulateMovement] *)
Definition Elevator_simulateMovement (fuel : nat) (targetFloor : Z) : Cmd Elevator unit :=
  simulateMovement_loop fuel targetFloor;;
  queue_pop;;
  State_stop.

(** [Elevator::processQueue] *)
Definition Elevator_processQueue (fuel : nat) : Cmd Elevator unit :=
  e ← get;
  match floorQueue e with
  | [] => skip
  | targetFloor :: _ =>
      print (ElevatorProcessing (id e) targetFloor);;
      if bool_decide (targetFloor > currentFloor e) then
        State_moveUp;;
        Elevator_simulateMovement fuel targetFloor
      else if bool_decide (targetFloor < currentFloor e) then
        State_moveDown;;
        Elevator_simulateMovement fuel targetFloor
      else skip
  end.

(** [Elevator::addToQueue] *)
Definition Elevator_addToQueue (fuel : nat) (floor : Z) : Cmd Elevator unit :=
  modify (fun e => set_floorQueue (floorQueue e ++ [floor]) e);;
  e ← get;
  print (ElevatorReceived (id e) floor);;
  Elevator_processQueue fuel.

(** ** Stores and pointers *)

#[global] Instance res_ret : MRet res := @Done.
#[global] Instance res_bind : MBind res := fun A B k r =>
  match r with
  | Done a => k a
  | OutOfFuel => OutOfFuel
  | Undefined => Undefined
  end.

(** [*p] for a pointer [p] into a store of objects. *)
Definition deref {A} (store : list A) (p : nat) : res A :=
  match store !! p with
  | Some a => Done a
  | None => Undefined
  end.

(** ** The selection strategy *)

(** [class ElevatorSelectionStrategy]: a strategy reads the elevators
    through the pointers it is given and returns one of them or [nullptr]. *)
Definition ElevatorSelectionStrategy : Type :=
  Z -> Direction -> list nat -> list Elevator -> res (option nat).

(** [abs(floor - elevator->getCurrentFloor())] *)
Definition distance (floor : Z) (elevator : Elevator) : Z :=
  Int.abs (Int.sub floor (currentFloor elevator)).

(** The three conditions of the loop body of
    [NearestElevatorStrategy::selectElevator], at an elevator and the
    current value of [shortestDistance]. *)
Definition idle_branch (floor : Z) (shortestDistance : Z) (elevator : Elevator) : bool :=
  bool_decide (state elevator = IDLE ∧ distance floor elevator < shortestDistance).

Definition up_branch (floor : Z) (direction : Direction) (shortestDistance : Z)
    (elevator : Elevator) : bool :=
  bool_decide (direction = UP ∧ state elevator = MOVING_UP ∧
               currentFloor elevator < floor ∧ distance floor elevator < shortestDistance).

Definition down_branch (floor : Z) (direction : Direction) (shortestDistance : Z)
    (elevator : Elevator) : bool :=
  bool_decide (direction = DOWN ∧ state elevator = MOVING_DOWN ∧
               currentFloor elevator > floor ∧ distance floor elevator < shortestDistance).

(** One iteration of the loop, on the pair
    [(nearestElevator, shortestDistance)]. *)
Definition select_body (store : list Elevator) (floor : Z) (direction : Direction)
    (best : nat * Z) (p : nat) : res (nat * Z) :=
  elevator ← deref store p;
  if idle_branch floor (snd best) elevator then mret (p, distance floor elevator)
  else if up_branch floor direction (snd best) elevator then mret (p, distance floor elevator)
  else if down_branch floor direction (snd best) elevator then mret (p, distance floor elevator)
  else mret best.

(** [for (Elevator* elevator : elevators) ...] *)
Fixpoint select_loop (store : list Elevator) (floor : Z) (direction : Direction)
    (elevators : list nat) (best : nat * Z) : res (nat * Z) :=
  match elevators with
  | [] => mret best
  | p :: rest =>
      best' ← select_body store floor direction best p;
      select_loop store floor direction rest best'
  end.

(** [NearestElevatorStrategy::selectElevator] *)
Definition NearestElevatorStrategy : ElevatorSelectionStrategy :=
  fun floor direction elevators store =>
    match elevators with
    | [] => mret None
    | p0 :: _ =>
        e0 ← deref store p0;
        best ← select_loop store floor direction elevators (p0, distance floor e0);
        mret (Some (fst best))
    end.

(** ** Observers and panels *)

(** [class ElevatorObserver] *)
Class ElevatorObserver (T : Type) : Type :=
  update : Z -> StateType -> Cmd T unit.

(** [class OuterPanel]: [this_floor] is the member [floor], which the
    parameter of [update] hides; [currentDirection] is never initialised.
    The [manager] pointer designates the one manager of the store. *)
Record OuterPanel : Type := mkOuterPanel {
  this_floor : Z;
  currentDisplayFloor : Z;
  currentDirection : option Direction
}.

(** [OuterPanel::OuterPanel] *)
Definition OuterPanel_new (floorNum : Z) : OuterPanel * list Output :=
  (mkOuterPanel floorNum 1 None, [PanelCreated floorNum]).

(** [OuterPanel::update] *)
#[global] Instance OuterPanel_update : ElevatorObserver OuterPanel :=
  fun floor state =>
    modify (fun p => mkOuterPanel (this_floor p) floor (currentDirection p));;
    p ← get;
    print (PanelUpdated (this_floor p) floor state).

(** ** The manager *)

(** [class ElevatorManager]: the three vectors hold pointers. *)
Record ElevatorManager : Type := mkElevatorManager {
  elevators : list nat;
  panels : list nat;
  observers : list nat;
  selectionStrategy : ElevatorSelectionStrategy
}.

(** The objects of the program: the elevators, the panels and the manager. *)
Record World : Type := mkWorld {
  elevator_store : list Elevator;
  panel_store : list OuterPanel;
  manager : ElevatorManager
}.

Definition set_manager (m : ElevatorManager) (w : World) : World :=
  mkWorld (elevator_store w) (panel_store w) m.

(** Run a method of the elevator at [p]. *)
Definition at_elevator {A} (p : nat) (c : Cmd Elevator A) : Cmd World A :=
  fun w =>
    match elevator_store w !! p with
    | None => Undefined
    | Some e =>
        match c e with
        | Done (a, e', o) =>
            Done (a, mkWorld (<[p:=e']> (elevator_store w)) (panel_store w) (manager w), o)
        | OutOfFuel => OutOfFuel
        | Undefined => Undefined
        end
    end.

(** Run a method of the panel at [p]. *)
Definition at_panel {A} (p : nat) (c : Cmd OuterPanel A) : Cmd World A :=
  fun w =>
    match panel_store w !! p with
    | None => Undefined
    | Some x =>
        match c x with
        | Done (a, x', o) =>
            Done (a, mkWorld (elevator_store w) (<[p:=x']> (panel_store w)) (manager w), o)
        | OutOfFuel => OutOfFuel
        | Undefined => Undefined
        end
    end.

(** A result that touches neither the store nor the console. *)
Definition lift {S A} (r : res A) : Cmd S A :=
  fun s =>
    match r with
    | Done a => Done (a, s, [])
    | OutOfFuel => OutOfFuel
    | Undefined => Undefined
    end.

(** [for (auto x : xs) body(x);] *)
Fixpoint for_each {S A} (xs : list A) (body : A -> Cmd S unit) : Cmd S unit :=
  match xs with
  | [] => skip
  | x :: rest => body x;; for_each rest body
  end.

(** [ElevatorManager::ElevatorManager] *)
Definition ElevatorManager_new : ElevatorManager * list Output :=
  (mkElevatorManager [] [] [] NearestElevatorStrategy, [ManagerCreated]).


(** [ElevatorManager::addToQueue] *)
Definition ElevatorManager_addToQueue (fuel : nat) (floor : Z) (direction : Direction)
    : Cmd World unit :=
  print (RequestReceived floor);;
  w ← get;
  selectedElevator ←
    lift (selectionStrategy (manager w) floor direction
            (elevators (manager w)) (elevator_store w));
  match selectedElevator with
  | Some p => at_elevator p (Elevator_addToQueue fuel floor)
  | None => skip
  end.

(** [ElevatorManager::notifyObservers] *)
Definition ElevatorManager_notifyObservers (floor : Z) (state : StateType) : Cmd World unit :=
  w ← get;
  for_each (observers (manager w)) (fun observer => at_panel observer (update floor state)).

(** [ElevatorManager::addPanel] *)
Definition ElevatorManager_addPanel (panel : nat) : Cmd World unit :=
  modify (fun w =>
    let m := manager w in
    set_manager (mkElevatorManager (elevators m) (panels m ++ [panel])
                   (observers m ++ [panel]) (selectionStrategy m)) w).

(** [ElevatorManager::addElevator] *)
Definition ElevatorManager_addElevator (elevator : nat) : Cmd World unit :=
  modify (fun w =>
    let m := manager w in
    set_manager (mkElevatorManager (elevators m ++ [elevator]) (panels m)
                   (observers m) (selectionStrategy m)) w).

(** [OuterPanel::requestElevator], of the panel at [p]. *)
Definition OuterPanel_requestElevator (fuel : nat) (p : nat) (direction : Direction)
    : Cmd World unit :=
  w ← get;
  panel ← lift (deref (panel_store w) p);
  print (PanelRequesting (this_floor panel));;
  ElevatorManager_addToQueue fuel (this_floor panel) direction.

(** ** The scenario of [main] *)

(** [new Elevator(id, manager)]: the new object's address. *)
Definition new_Elevator (i : Z) : Cmd World nat :=
  fun w =>
    let '(e, o) := Elevator_new i in
    Done (length (elevator_store w),
          mkWorld (elevator_store w ++ [e]) (panel_store w) (manager w), o).

(** [new OuterPanel(floorNum, manager)] *)
Definition new_OuterPanel (floorNum : Z) : Cmd World nat :=
  fun w =>
    let '(x, o) := OuterPanel_new floorNum in
    Done (length (panel_store w),
          mkWorld (elevator_store w) (panel_store w ++ [x]) (manager w), o).

(** The store after [new ElevatorManager()]. *)
Definition initial_World : World := mkWorld [] [] (fst ElevatorManager_new).

(** [main] up to the first request: the objects and their registration. *)
Definition main_setup : Cmd World (nat * nat * nat) :=
  elevator1 ← new_Elevator 1;
  elevator2 ← new_Elevator 2;
  ElevatorManager_addElevator elevator1;;
  ElevatorManager_addElevator elevator2;;
  panel1 ← new_OuterPanel 1;
  panel2 ← new_OuterPanel 2;
  panel3 ← new_OuterPanel 3;
  ElevatorManager_addPanel panel1;;
  ElevatorManager_addPanel panel2;;
  ElevatorManager_addPanel panel3;;
  mret (panel1, panel2, panel3).

(** The three requests of [main]; the banner lines that [main] writes itself
    are left out. *)
Definition main (fuel : nat) : Cmd World unit :=
  '(panel1, panel2, panel3) ← main_setup;
  OuterPanel_requestElevator fuel panel3 DOWN;;
  OuterPanel_requestElevator fuel panel1 UP;;
  OuterPanel_requestElevator fuel panel2 UP.


(** ** Requests to the state machine *)

(** The three operations a state object answers. *)
Inductive Request : Type := requestUp | requestDown | requestStop.

(** [state->moveUp()], [state->moveDown()] or [state->stop()]. *)
Definition State_request (r : Request) : Cmd Elevator unit :=
  match r with
  | requestUp => State_moveUp
  | requestDown => State_moveDown
  | requestStop => State_stop
  end.

(** The transition table as the specification prints it, row by row;
    [None] is the entry "no-op".  This is the specification's side of the
    comparison, the code's side is [State_request]. *)
Definition transition_table (current : StateType) (r : Request) : option StateType :=
  match current, r with
  | IDLE, requestUp => Some MOVING_UP
  | IDLE, requestDown => Some MOVING_DOWN
  | IDLE, requestStop => None
  | MOVING_UP, requestUp => None
  | MOVING_UP, requestDown => Some MOVING_DOWN
  | MOVING_UP, requestStop => Some IDLE
  | MOVING_DOWN, requestUp => Some MOVING_UP
  | MOVING_DOWN, requestDown => None
  | MOVING_DOWN, requestStop => Some IDLE
  end.

(** The state the table gives after a request. *)
Definition table_next (current : StateType) (r : Request) : StateType :=
  default current (transition_table current r).

(** The states the table enters along a sequence of requests, one for each
    entry that is not a no-op. *)
Fixpoint table_changes (current : StateType) (rs : list Request) : list StateType :=
  match rs with
  | [] => []
  | r :: rest =>
      match transition_table current r with
      | Some next => next :: table_changes next rest
      | None => table_changes current rest
      end
  end.

(** ** Vocabulary of the statements *)

(** The floors a trip from [a] to [b] passes, one storey at a time: the
    [k]-th is [k] storeys from [a] on the side of [b]. *)
Definition trip_floors (a b : Z) : list Z :=
  (fun k => a + k * Z.sgn (b - a)) <$> seqZ 1 (Z.abs (b - a)).

(** The state of an elevator that travels from [a] to [b]. *)
Definition trip_state (a b : Z) : StateType :=
  if bool_decide (b > a) then MOVING_UP else MOVING_DOWN.

(** A unit that moves toward a call: it answers one of the two direction
    conditions of the strategy, the distance apart. *)
Definition moving_toward (floor : Z) (direction : Direction) (elevator : Elevator) : Prop :=
  (direction = UP /\ state elevator = MOVING_UP /\ currentFloor elevator < floor) \/
  (direction = DOWN /\ state elevator = MOVING_DOWN /\ currentFloor elevator > floor).

(** The idle preference at equal distance, as the specification words it:
    whenever the candidates hold an idle unit and a unit moving toward the
    call at the same distance, the idle unit is selected. *)
Definition idle_wins_every_tie : Prop :=
  forall (floor : Z) (direction : Direction) (store : list Elevator) (candidates : list nat)
         (pi pm : nat) (ei em : Elevator),
    pi ∈ candidates -> pm ∈ candidates ->
    store !! pi = Some ei -> store !! pm = Some em ->
    state ei = IDLE -> moving_toward floor direction em ->
    distance floor ei = distance floor em ->
    NearestElevatorStrategy floor direction candidates store = Done (Some pi).

(** A line written by an observer's [update]. *)
Definition is_PanelUpdated (o : Output) : bool :=
  match o with
  | PanelUpdated _ _ _ => true
  | _ => false
  end.

(** A command that writes no line of an observer. *)
Definition quiet {S A} (c : Cmd S A) : Prop :=
  forall s a s' o, c s = Done (a, s', o) -> Forall (fun x => is_PanelUpdated x = false) o.

(** A line written for one storey of movement. *)
Definition is_ElevatorAtFloor (o : Output) : bool :=
  match o with
  | ElevatorAtFloor _ _ => true
  | _ => false
  end.

(** No request of the sequence is for the floor the elevator stands at when
    the request arrives, the elevator starting at [cur] and serving each
    request as it arrives. *)
Fixpoint no_degenerate (cur : Z) (floors : list Z) : Prop :=
  match floors with
  | [] => True
  | f :: rest => f ≠ cur /\ no_degenerate f rest
  end.

(** The lines an elevator writes when it serves each request of the
    sequence as it arrives. *)
Fixpoint served_lines (i cur : Z) (floors : list Z) : list Output :=
  match floors with
  | [] => []
  | f :: rest =>
      ([ElevatorReceived i f; ElevatorProcessing i f; StateChanged i (trip_state cur f)] ++
       (ElevatorAtFloor i <$> trip_floors cur f) ++ [StateChanged i IDLE]) ++
      served_lines i f rest
  end.

(** The store [main] has built when it issues its first request. *)
Definition main_World : World :=
  mkWorld [mkElevator 1 1 IDLE []; mkElevator 2 1 IDLE []]
          [mkOuterPanel 1 1 None; mkOuterPanel 2 1 None; mkOuterPanel 3 1 None]
          (mkElevatorManager [0; 1]%nat [0; 1; 2]%nat [0; 1; 2]%nat NearestElevatorStrategy).

(** The store after the first request of [main], and after the second. *)
Definition main_World_1 : World :=
  mkWorld [mkElevator 1 3 IDLE []; mkElevator 2 1 IDLE []]
          (panel_store main_World) (manager main_World).

Definition main_World_2 : World :=
  mkWorld [mkElevator 1 3 IDLE []; mkElevator 2 1 IDLE [1]]
          (panel_store main_World) (manager main_World).

(** The store when [main] has issued its three requests. *)
Definition main_World_3 : World :=
  mkWorld [mkElevator 1 2 IDLE []; mkElevator 2 1 IDLE [1]]
          (panel_store main_World) (manager main_World).

(** ** Vocabulary of the invariants *)

(** The head of the queue is the floor the elevator stands at. *)
Definition blocked (e : Elevator) : Prop :=
  head (floorQueue e) = Some (currentFloor e).




(** A command of an elevator that leaves its id as it is. *)
Definition keeps_id {A} (c : Cmd Elevator A) : Prop :=
  forall e a e' o, c e = Done (a, e', o) -> id e' = id e.

(** Fuel for the longest trip between two [int] floors. *)
Definition enough_fuel (fuel : nat) : Prop := (Z.to_nat (2 ^ 32) <= fuel)%nat.

(** * Properties *)

(** ** Machine integers *)

Lemma int_wrap_id z : Int.int_range z -> Int.int_wrap z = z.
Proof.
  unfold Int.int_range, Int.INT_MIN, Int.INT_MAX, Int.int_wrap. intros H.
  rewrite Z.mod_small; lia.
Qed.

Lemma incr_below a b :
  Int.int_range a -> Int.int_range b -> a < b -> Int.incr a = a + 1.
Proof.
  unfold Int.incr. intros Ha Hb Hlt. apply int_wrap_id.
  unfold Int.int_range, Int.INT_MIN, Int.INT_MAX in *. lia.
Qed.

Lemma decr_above a b :
  Int.int_range a -> Int.int_range b -> b < a -> Int.decr a = a - 1.
Proof.
  unfold Int.decr. intros Ha Hb Hlt. apply int_wrap_id.
  unfold Int.int_range, Int.INT_MIN, Int.INT_MAX in *. lia.
Qed.

(** ** Running commands *)

Ltac run_cmd :=
  unfold mbind, mret, Cmd_bind, Cmd_ret, cmd_bind, cmd_ret,
         get, put, modify, print, skip, out_of_fuel, undefined; simpl.

Lemma main_setup_builds_main_World :
  main_setup initial_World =
  Done ((0, 1, 2)%nat, main_World,
        [ElevatorCreated 1 1; ElevatorCreated 2 1;
         PanelCreated 1; PanelCreated 2; PanelCreated 3]).
Proof. reflexivity. Qed.

(** ** The state machine *)

Lemma State_request_table r e :
  State_request r e =
  Done (tt, set_state (table_next (state e) r) e,
        match transition_table (state e) r with
        | Some next => [StateChanged (id e) next]
        | None => []
        end).
Proof.
  destruct e as [i f s q]; destruct r, s; reflexivity.
Qed.

Lemma requests_follow_table rs : forall e,
  for_each rs State_request e =
  Done (tt, set_state (foldl table_next (state e) rs) e,
        StateChanged (id e) <$> table_changes (state e) rs).
Proof.
  induction rs as [|r rs IH]; intros e.
  - destruct e; reflexivity.
  - simpl. unfold mbind, Cmd_bind, cmd_bind.
    rewrite State_request_table, IH.
    destruct e as [i f s q]; simpl.
    unfold table_next. destruct (transition_table s r); reflexivity.
Qed.

(** C3: from the state [Idle] of a new elevator, any sequence of
    [requestUp], [requestDown] and [requestStop] ends in the state the
    transition table gives, which is one of [Idle], [MovingUp] and
    [MovingDown]; the entries "no-op" call nothing (one state-change line
    is written for each other entry), and the floor and the queue are not
    touched. *)
Theorem C3_state_machine_follows_table (i : Z) (rs : list Request) :
  exists e' out,
    for_each rs State_request (fst (Elevator_new i)) = Done (tt, e', out) /\
    state e' = foldl table_next IDLE rs /\
    state e' ∈ [IDLE; MOVING_UP; MOVING_DOWN] /\
    out = StateChanged i <$> table_changes IDLE rs /\
    id e' = i /\ currentFloor e' = 1 /\ floorQueue e' = [].
Proof.
  eexists _, _. split; [apply requests_follow_table|]. simpl.
  repeat split; try reflexivity.
  destruct (foldl table_next IDLE rs); repeat constructor.
Qed.

(** ** Degenerate trips *)

(** The floor an elevator stands at is enqueued on an empty queue:
    [processQueue] takes neither of its two branches. *)
Lemma Elevator_addToQueue_same_floor (fuel : nat) (i floor : Z) (s : StateType) :
  Elevator_addToQueue fuel floor (mkElevator i floor s []) =
  Done (tt, mkElevator i floor s [floor],
        [ElevatorReceived i floor; ElevatorProcessing i floor]).
Proof.
  unfold Elevator_addToQueue, Elevator_processQueue. run_cmd.
  rewrite !bool_decide_eq_false_2 by lia. reflexivity.
Qed.

(** C2: the floor an elevator stands at is enqueued.  No storey is
    travelled and nothing more is written than the two lines of
    [addToQueue] and [processQueue]: there is no line of a stop.  The entry
    stays in the queue, and [stop] is not called: a state other than
    [Idle] is kept as it is. *)
Theorem C2_degenerate_trip_is_not_consumed (fuel : nat) (i floor : Z) (s : StateType) :
  Elevator_addToQueue fuel floor (mkElevator i floor s []) =
  Done (tt, mkElevator i floor s [floor],
        [ElevatorReceived i floor; ElevatorProcessing i floor]) /\
  floorQueue (mkElevator i floor s [floor]) ≠ [] /\
  (State_stop (mkElevator i floor MOVING_UP [floor]) =
   Done (tt, mkElevator i floor IDLE [floor], [StateChanged i IDLE])).
Proof.
  split; [apply Elevator_addToQueue_same_floor|]. split; [discriminate|reflexivity].
Qed.

(** Once the head of the queue is the floor the elevator stands at, every
    later request is appended behind it and never looked at. *)
Lemma head_at_current_floor_blocks (fuel : nat) (i floor g : Z) (s : StateType) (q : list Z) :
  Elevator_addToQueue fuel g (mkElevator i floor s (floor :: q)) =
  Done (tt, mkElevator i floor s (floor :: q ++ [g]),
        [ElevatorReceived i g; ElevatorProcessing i floor]).
Proof.
  unfold Elevator_addToQueue, Elevator_processQueue. run_cmd.
  rewrite !bool_decide_eq_false_2 by lia. reflexivity.
Qed.

(** ** Movement *)

Lemma fmap_seqZ_shift (f g : Z -> Z) (m n : Z) :
  (forall k, f (1 + k) = g k) -> f <$> seqZ (1 + m) n = g <$> seqZ m n.
Proof.
  intros Hfg. rewrite <- fmap_add_seqZ, <- list_fmap_compose.
  apply list_fmap_ext. intros _ k _. apply Hfg.
Qed.

Lemma trip_floors_same a : trip_floors a a = [].
Proof. unfold trip_floors. rewrite Z.sub_diag. reflexivity. Qed.

Lemma trip_floors_up a b :
  a < b -> trip_floors a b = (a + 1) :: trip_floors (a + 1) b.
Proof.
  intros Hlt. unfold trip_floors.
  rewrite (seqZ_cons 1) by lia. rewrite fmap_cons.
  rewrite (Z.sgn_pos (b - a)) by lia. f_equal; try lia.
  destruct (decide (b = a + 1)) as [->|Hne].
  - rewrite !seqZ_nil by lia. reflexivity.
  - rewrite (Z.sgn_pos (b - (a + 1))) by lia.
    replace (Z.abs (b - (a + 1))) with (Z.pred (Z.abs (b - a))) by lia.
    change (Z.succ 1) with (1 + 1).
    apply fmap_seqZ_shift. intros k. lia.
Qed.

Lemma trip_floors_down a b :
  b < a -> trip_floors a b = (a - 1) :: trip_floors (a - 1) b.
Proof.
  intros Hlt. unfold trip_floors.
  rewrite (seqZ_cons 1) by lia. rewrite fmap_cons.
  rewrite (Z.sgn_neg (b - a)) by lia. f_equal; try lia.
  destruct (decide (b = a - 1)) as [->|Hne].
  - rewrite !seqZ_nil by lia. reflexivity.
  - rewrite (Z.sgn_neg (b - (a - 1))) by lia.
    replace (Z.abs (b - (a - 1))) with (Z.pred (Z.abs (b - a))) by lia.
    change (Z.succ 1) with (1 + 1).
    apply fmap_seqZ_shift. intros k. lia.
Qed.

Lemma length_trip_floors a b : length (trip_floors a b) = Z.to_nat (Z.abs (b - a)).
Proof. unfold trip_floors. rewrite length_fmap. apply length_seqZ. Qed.

(** The loop stops where the floor is the target, whatever fuel is left. *)
Lemma simulateMovement_loop_at_target fuel e :
  simulateMovement_loop fuel (currentFloor e) e = Done (tt, e, []).
Proof.
  destruct fuel; simpl; run_cmd;
    rewrite bool_decide_eq_false_2 by (intros H; apply H; reflexivity);
    reflexivity.
Qed.

(** With one unit of fuel for each storey, the loop reaches the target
    and writes one line for each storey, in the order they are passed. *)
Lemma simulateMovement_loop_reaches target : forall fuel e,
  Int.int_range (currentFloor e) -> Int.int_range target ->
  (Z.to_nat (Z.abs (target - currentFloor e)) <= fuel)%nat ->
  simulateMovement_loop fuel target e =
  Done (tt, set_currentFloor target e,
        ElevatorAtFloor (id e) <$> trip_floors (currentFloor e) target).
Proof.
  induction fuel as [|fuel IH]; intros [i f s q] Hf Ht Hfuel; simpl in *.
  - assert (f = target) as -> by lia.
    rewrite trip_floors_same. run_cmd.
    rewrite bool_decide_eq_false_2 by (intros H; apply H; reflexivity).
    reflexivity.
  - destruct (decide (f = target)) as [->|Hne].
    + rewrite trip_floors_same. run_cmd.
      rewrite bool_decide_eq_false_2 by (intros H; apply H; reflexivity).
      reflexivity.
    + run_cmd. rewrite bool_decide_eq_true_2 by exact Hne.
      destruct (decide (target > f)) as [Hup|Hdown].
      * rewrite bool_decide_eq_true_2 by exact Hup. simpl.
        rewrite (incr_below f target) by (assumption || lia).
        rewrite (trip_floors_up f target) by lia.
        specialize (IH (mkElevator i (f + 1) s q)). simpl in IH.
        unfold set_currentFloor in *; simpl in *.
        rewrite IH; [reflexivity| |assumption|lia].
        unfold Int.int_range, Int.INT_MIN, Int.INT_MAX in *. lia.
      * rewrite bool_decide_eq_false_2 by exact Hdown. simpl.
        rewrite (decr_above f target) by (assumption || lia).
        rewrite (trip_floors_down f target) by lia.
        specialize (IH (mkElevator i (f - 1) s q)). simpl in IH.
        unfold set_currentFloor in *; simpl in *.
        rewrite IH; [reflexivity| |assumption|lia].
        unfold Int.int_range, Int.INT_MIN, Int.INT_MAX in *. lia.
Qed.

Lemma queue_pop_stop (e : Elevator) :
  floorQueue e ≠ [] ->
  (queue_pop;; State_stop) e =
  Done (tt, mkElevator (id e) (currentFloor e) IDLE (tail (floorQueue e)),
        if decide (state e = IDLE) then [] else [StateChanged (id e) IDLE]).
Proof.
  destruct e as [i f s [|x q]]; simpl; intros Hq; [congruence|].
  destruct s; reflexivity.
Qed.

Lemma simulateMovement_unfold (fuel : nat) (targetFloor : Z) (e : Elevator) :
  Elevator_simulateMovement fuel targetFloor e =
  match simulateMovement_loop fuel targetFloor e with
  | Done (_, e1, o1) =>
      match (queue_pop;; State_stop) e1 with
      | Done (b, e2, o2) => Done (b, e2, o1 ++ o2)
      | OutOfFuel => OutOfFuel
      | Undefined => Undefined
      end
  | OutOfFuel => OutOfFuel
  | Undefined => Undefined
  end.
Proof. reflexivity. Qed.

(** What [simulateMovement] does when it has fuel for every storey. *)
Lemma simulateMovement_reaches (fuel : nat) (targetFloor : Z) (e : Elevator) :
  Int.int_range (currentFloor e) -> Int.int_range targetFloor ->
  floorQueue e ≠ [] ->
  (Z.to_nat (Z.abs (targetFloor - currentFloor e)) <= fuel)%nat ->
  Elevator_simulateMovement fuel targetFloor e =
  Done (tt, mkElevator (id e) targetFloor IDLE (tail (floorQueue e)),
        (ElevatorAtFloor (id e) <$> trip_floors (currentFloor e) targetFloor) ++
        (if decide (state e = IDLE) then [] else [StateChanged (id e) IDLE])).
Proof.
  intros Hf Ht Hq Hfuel.
  rewrite simulateMovement_unfold, simulateMovement_loop_reaches by assumption.
  rewrite queue_pop_stop by (destruct e; exact Hq).
  destruct e; reflexivity.
Qed.

(** The [k]-th storey of a trip is [k] storeys from its start, on the side
    of the target. *)
Lemma trip_floors_lookup (a b : Z) (k : nat) (x : Z) :
  trip_floors a b !! k = Some x -> x = a + (1 + Z.of_nat k) * Z.sgn (b - a).
Proof.
  unfold trip_floors. rewrite list_lookup_fmap.
  destruct (seqZ 1 (Z.abs (b - a)) !! k) as [y|] eqn:Hy; [|discriminate].
  apply lookup_seqZ in Hy as [-> _]. simpl. congruence.
Qed.

(** C9: [simulateMovement(targetFloor)] terminates for every current floor
    and every target: fuel for the storeys between them is enough.  The
    floor moves one storey at a time toward the target (the lines written
    are those of [trip_floors], [|targetFloor - currentFloor|] of them) and
    ends at the target; with a queue that is not empty, its head is popped
    and [stop] leaves the state [Idle]. *)
Theorem C9_simulateMovement_terminates (fuel : nat) (targetFloor : Z) (e : Elevator) :
  Int.int_range (currentFloor e) -> Int.int_range targetFloor ->
  floorQueue e ≠ [] ->
  (Z.to_nat (Z.abs (targetFloor - currentFloor e)) <= fuel)%nat ->
  Elevator_simulateMovement fuel targetFloor e =
  Done (tt, mkElevator (id e) targetFloor IDLE (tail (floorQueue e)),
        (ElevatorAtFloor (id e) <$> trip_floors (currentFloor e) targetFloor) ++
        (if decide (state e = IDLE) then [] else [StateChanged (id e) IDLE])) /\
  length (trip_floors (currentFloor e) targetFloor) =
    Z.to_nat (Z.abs (targetFloor - currentFloor e)) /\
  (forall k x, trip_floors (currentFloor e) targetFloor !! k = Some x ->
     x = currentFloor e + (1 + Z.of_nat k) * Z.sgn (targetFloor - currentFloor e)).
Proof.
  intros Hf Ht Hq Hfuel. split; [|split].
  - apply simulateMovement_reaches; assumption.
  - apply length_trip_floors.
  - intros k x. apply trip_floors_lookup.
Qed.

Lemma C9_simulateMovement_terminates_witness :
  Elevator_simulateMovement 2 3 (mkElevator 1 1 MOVING_UP [3; 7]) =
  Done (tt, mkElevator 1 3 IDLE [7],
        [ElevatorAtFloor 1 2; ElevatorAtFloor 1 3; StateChanged 1 IDLE]).
Proof.
  refine (proj1 (C9_simulateMovement_terminates 2 3 (mkElevator 1 1 MOVING_UP [3; 7]) _ _ _ _)).
  - unfold Int.int_range, Int.INT_MIN, Int.INT_MAX; simpl; lia.
  - unfold Int.int_range, Int.INT_MIN, Int.INT_MAX; simpl; lia.
  - simpl; discriminate.
  - simpl; lia.
Defined.

(** [simulateMovement] on an empty queue pops an empty queue. *)
Lemma simulateMovement_popping_empty_queue (fuel : nat) (e : Elevator) :
  floorQueue e = [] ->
  Elevator_simulateMovement fuel (currentFloor e) e = Undefined.
Proof.
  intros Hq. rewrite simulateMovement_unfold, simulateMovement_loop_at_target.
  destruct e as [i f s q]; simpl in *; subst q. reflexivity.
Qed.

(** ** Trips *)

(** An idle elevator with an empty queue is sent to another floor: it
    changes to the state of the direction, passes the storeys one by one,
    pops the request and stops. *)
Lemma Elevator_addToQueue_trip (fuel : nat) (i f floor : Z) :
  Int.int_range f -> Int.int_range floor -> floor ≠ f ->
  (Z.to_nat (Z.abs (floor - f)) <= fuel)%nat ->
  Elevator_addToQueue fuel floor (mkElevator i f IDLE []) =
  Done (tt, mkElevator i floor IDLE [],
        [ElevatorReceived i floor; ElevatorProcessing i floor;
         StateChanged i (trip_state f floor)] ++
        (ElevatorAtFloor i <$> trip_floors f floor) ++
        [StateChanged i IDLE]).
Proof.
  intros Hf Hfloor Hne Hfuel.
  unfold Elevator_addToQueue, Elevator_processQueue, trip_state. run_cmd.
  unfold set_state, set_floorQueue; simpl.
  destruct (decide (floor > f)) as [Hup|Hdown].
  - rewrite !bool_decide_eq_true_2 by exact Hup. simpl.
    unfold set_state, set_floorQueue; simpl.
    rewrite (simulateMovement_reaches fuel floor (mkElevator i f MOVING_UP [floor]))
      by (simpl; (assumption || discriminate)).
    reflexivity.
  - rewrite !(bool_decide_eq_false_2 (floor > f)) by exact Hdown.
    rewrite bool_decide_eq_true_2 by lia. simpl.
    unfold set_state, set_floorQueue; simpl.
    rewrite (simulateMovement_reaches fuel floor (mkElevator i f MOVING_DOWN [floor]))
      by (simpl; (assumption || discriminate)).
    reflexivity.
Qed.

(** ** Requests served one after the other *)

Lemma int_distance_fuel (a b : Z) (fuel : nat) :
  Int.int_range a -> Int.int_range b ->
  (Z.to_nat (2 ^ 32) <= fuel)%nat ->
  (Z.to_nat (Z.abs (b - a)) <= fuel)%nat.
Proof.
  unfold Int.int_range, Int.INT_MIN, Int.INT_MAX. intros Ha Hb Hfuel.
  etrans; [|exact Hfuel]. apply Z2Nat.inj_le; lia.
Qed.

(** As long as no request is for the floor the elevator stands at, the
    requests are served one after the other in the order they arrive, and
    the queue is empty between two calls. *)
Lemma requests_served_in_order (fuel : nat) (i : Z) (floors : list Z) : forall cur,
  Int.int_range cur -> Forall Int.int_range floors ->
  no_degenerate cur floors ->
  (Z.to_nat (2 ^ 32) <= fuel)%nat ->
  for_each floors (Elevator_addToQueue fuel) (mkElevator i cur IDLE []) =
  Done (tt, mkElevator i (default cur (last floors)) IDLE [], served_lines i cur floors).
Proof.
  induction floors as [|f rest IH]; intros cur Hcur Hall Hnd Hfuel.
  - reflexivity.
  - apply Forall_cons in Hall as [Hf Hrest]. destruct Hnd as [Hne Hnd].
    change (for_each (f :: rest) (Elevator_addToQueue fuel))
      with (cmd_bind (fun _ => for_each rest (Elevator_addToQueue fuel))
              (Elevator_addToQueue fuel f)).
    unfold cmd_bind.
    rewrite Elevator_addToQueue_trip
      by (try assumption; apply int_distance_fuel; assumption).
    rewrite IH by assumption.
    rewrite last_cons. destruct (last rest); reflexivity.
Qed.

(** C4: the requests 3, 3 and 5 arrive at a new elevator.  The first is
    served; the second, for the floor the elevator has reached, stays at the
    head of the queue, and the third waits behind it: the elevator is not
    driven to floor 5 and the queue holds 3 and 5 when the last call
    returns. *)
Theorem C4_repeated_floor_blocks_queue (fuel : nat) :
  for_each [3; 3; 5] (Elevator_addToQueue (2 + fuel)) (fst (Elevator_new 1)) =
  Done (tt, mkElevator 1 3 IDLE [3; 5],
        [ElevatorReceived 1 3; ElevatorProcessing 1 3; StateChanged 1 MOVING_UP;
         ElevatorAtFloor 1 2; ElevatorAtFloor 1 3; StateChanged 1 IDLE;
         ElevatorReceived 1 3; ElevatorProcessing 1 3;
         ElevatorReceived 1 5; ElevatorProcessing 1 3]).
Proof.
  change (for_each [3; 3; 5] (Elevator_addToQueue (2 + fuel)))
    with (cmd_bind (fun _ =>
            cmd_bind (fun _ =>
              cmd_bind (fun _ => skip) (Elevator_addToQueue (2 + fuel) 5))
              (Elevator_addToQueue (2 + fuel) 3))
            (Elevator_addToQueue (2 + fuel) 3)).
  unfold cmd_bind. simpl fst.
  rewrite Elevator_addToQueue_trip;
    [|unfold Int.int_range, Int.INT_MIN, Int.INT_MAX; lia ..|simpl; lia].
  rewrite Elevator_addToQueue_same_floor.
  rewrite head_at_current_floor_blocks.
  reflexivity.
Qed.

(** ** Calls through the manager *)

Lemma at_elevator_run {A} (p : nat) (c : Cmd Elevator A) (w : World)
    (e e' : Elevator) (a : A) (o : list Output) :
  elevator_store w !! p = Some e ->
  c e = Done (a, e', o) ->
  at_elevator p c w =
  Done (a, mkWorld (<[p:=e']> (elevator_store w)) (panel_store w) (manager w), o).
Proof. intros Hp Hc. unfold at_elevator. rewrite Hp, Hc. reflexivity. Qed.

(** A call that the strategy assigns to the elevator at [p]. *)
Lemma ElevatorManager_addToQueue_assigned (fuel : nat) (floor : Z) (direction : Direction)
    (w : World) (p : nat) (e e' : Elevator) (o : list Output) :
  selectionStrategy (manager w) floor direction
    (elevators (manager w)) (elevator_store w) = Done (Some p) ->
  elevator_store w !! p = Some e ->
  Elevator_addToQueue fuel floor e = Done (tt, e', o) ->
  ElevatorManager_addToQueue fuel floor direction w =
  Done (tt, mkWorld (<[p:=e']> (elevator_store w)) (panel_store w) (manager w),
        RequestReceived floor :: o).
Proof.
  intros Hsel Hp He. unfold ElevatorManager_addToQueue. run_cmd.
  rewrite Hsel. simpl.
  rewrite (at_elevator_run p _ w e e' tt o Hp He). reflexivity.
Qed.

(** A call for which the strategy returns [nullptr]. *)
Lemma ElevatorManager_addToQueue_dropped (fuel : nat) (floor : Z) (direction : Direction)
    (w : World) :
  selectionStrategy (manager w) floor direction
    (elevators (manager w)) (elevator_store w) = Done None ->
  ElevatorManager_addToQueue fuel floor direction w = Done (tt, w, [RequestReceived floor]).
Proof.
  intros Hsel. unfold ElevatorManager_addToQueue. run_cmd.
  rewrite Hsel. reflexivity.
Qed.

Lemma OuterPanel_requestElevator_run (fuel : nat) (p : nat) (direction : Direction)
    (w w' : World) (panel : OuterPanel) (o : list Output) :
  panel_store w !! p = Some panel ->
  ElevatorManager_addToQueue fuel (this_floor panel) direction w = Done (tt, w', o) ->
  OuterPanel_requestElevator fuel p direction w =
  Done (tt, w', PanelRequesting (this_floor panel) :: o).
Proof.
  intros Hp Hm. unfold OuterPanel_requestElevator, deref. run_cmd.
  rewrite Hp. simpl. rewrite Hm. reflexivity.
Qed.

(** The first request of [main]: the panel of floor 3 asks for an elevator
    going down, and the elevator with id 1 travels from floor 1 to floor 3. *)
Lemma main_first_request (fuel : nat) :
  OuterPanel_requestElevator (2 + fuel) 2 DOWN main_World =
  Done (tt, main_World_1,
        [PanelRequesting 3; RequestReceived 3; ElevatorReceived 1 3;
         ElevatorProcessing 1 3; StateChanged 1 MOVING_UP;
         ElevatorAtFloor 1 2; ElevatorAtFloor 1 3; StateChanged 1 IDLE]).
Proof.
  eapply (OuterPanel_requestElevator_run _ 2 DOWN main_World _ (mkOuterPanel 3 1 None));
    [reflexivity|].
  eapply (ElevatorManager_addToQueue_assigned _ 3 DOWN main_World 0
            (mkElevator 1 1 IDLE []) (mkElevator 1 3 IDLE [])); [reflexivity..|].
  rewrite Elevator_addToQueue_trip;
    [reflexivity|unfold Int.int_range, Int.INT_MIN, Int.INT_MAX; lia ..|simpl; lia].
Qed.

(** The second request of [main]: the panel of floor 1 asks for an elevator
    going up, and the call goes to the elevator with id 2, which stands at
    floor 1. *)
Lemma main_second_request (fuel : nat) :
  OuterPanel_requestElevator fuel 0 UP main_World_1 =
  Done (tt, main_World_2,
        [PanelRequesting 1; RequestReceived 1; ElevatorReceived 2 1;
         ElevatorProcessing 2 1]).
Proof.
  eapply (OuterPanel_requestElevator_run _ 0 UP main_World_1 _ (mkOuterPanel 1 1 None));
    [reflexivity|].
  eapply (ElevatorManager_addToQueue_assigned _ 1 UP main_World_1 1
            (mkElevator 2 1 IDLE []) (mkElevator 2 1 IDLE [1])); [reflexivity..|].
  apply Elevator_addToQueue_same_floor.
Qed.

(** The third request of [main]: the panel of floor 2 asks for an elevator
    going up; both elevators are one storey away and the first listed, at
    floor 3, comes down. *)
Lemma main_third_request (fuel : nat) :
  OuterPanel_requestElevator (1 + fuel) 1 UP main_World_2 =
  Done (tt, main_World_3,
        [PanelRequesting 2; RequestReceived 2; ElevatorReceived 1 2;
         ElevatorProcessing 1 2; StateChanged 1 MOVING_DOWN;
         ElevatorAtFloor 1 2; StateChanged 1 IDLE]).
Proof.
  eapply (OuterPanel_requestElevator_run _ 1 UP main_World_2 _ (mkOuterPanel 2 1 None));
    [reflexivity|].
  eapply (ElevatorManager_addToQueue_assigned _ 2 UP main_World_2 0
            (mkElevator 1 3 IDLE []) (mkElevator 1 2 IDLE [])); [reflexivity..|].
  rewrite Elevator_addToQueue_trip;
    [reflexivity|unfold Int.int_range, Int.INT_MIN, Int.INT_MAX; lia ..|simpl; lia].
Qed.

(** The whole run of [main]: the second elevator is left with its request
    in the queue, and no panel is ever updated. *)
Lemma main_run (fuel : nat) :
  main (2 + fuel) initial_World =
  Done (tt, main_World_3,
        [ElevatorCreated 1 1; ElevatorCreated 2 1;
         PanelCreated 1; PanelCreated 2; PanelCreated 3;
         PanelRequesting 3; RequestReceived 3; ElevatorReceived 1 3;
         ElevatorProcessing 1 3; StateChanged 1 MOVING_UP;
         ElevatorAtFloor 1 2; ElevatorAtFloor 1 3; StateChanged 1 IDLE;
         PanelRequesting 1; RequestReceived 1; ElevatorReceived 2 1;
         ElevatorProcessing 2 1;
         PanelRequesting 2; RequestReceived 2; ElevatorReceived 1 2;
         ElevatorProcessing 1 2; StateChanged 1 MOVING_DOWN;
         ElevatorAtFloor 1 2; StateChanged 1 IDLE]).
Proof.
  change (main (2 + fuel) initial_World) with
    (match main_setup initial_World with
     | Done (ps, w, o) =>
         match (let '(panel1, panel2, panel3) := ps in
                cmd_bind (fun _ =>
                  cmd_bind (fun _ => OuterPanel_requestElevator (2 + fuel) panel2 UP)
                    (OuterPanel_requestElevator (2 + fuel) panel1 UP))
                  (OuterPanel_requestElevator (2 + fuel) panel3 DOWN)) w with
         | Done (b, w', o') => Done (b, w', o ++ o')
         | OutOfFuel => OutOfFuel
         | Undefined => Undefined
         end
     | OutOfFuel => OutOfFuel
     | Undefined => Undefined
     end).
  rewrite main_setup_builds_main_World. cbv beta iota. unfold cmd_bind.
  rewrite main_first_request, main_second_request.
  change (2 + fuel)%nat with (1 + (1 + fuel))%nat.
  rewrite (main_third_request (1 + fuel)). reflexivity.
Qed.

(** C1: the trip of [main]'s first request, from floor 1 to floor 3 with
    three observers registered.  The two storeys are written to the
    console by the elevator, and so is the stop; no observer is called:
    no line of an [update] is written and every panel still displays
    floor 1 when the elevator has stopped at floor 3. *)
Theorem C1_trip_notifies_no_observer (fuel : nat) :
  exists w' out,
    OuterPanel_requestElevator (2 + fuel) 2 DOWN main_World = Done (tt, w', out) /\
    elevator_store w' !! 0%nat = Some (mkElevator 1 3 IDLE []) /\
    observers (manager w') = [0; 1; 2]%nat /\
    length (filter (fun o => is_ElevatorAtFloor o = true) out) = 2%nat /\
    filter (fun o => is_PanelUpdated o = true) out = [] /\
    Forall (fun p => currentDisplayFloor p = 1) (panel_store w').
Proof.
  eexists _, _. split; [apply main_first_request|].
  repeat split; repeat constructor.
Qed.

(** C6: the second request of [main] is assigned to the elevator with id 2;
    when the call returns, the queue of that elevator holds the request. *)
Theorem C6_assigned_call_left_in_queue (fuel : nat) :
  exists w' out,
    OuterPanel_requestElevator fuel 0 UP main_World_1 = Done (tt, w', out) /\
    NearestElevatorStrategy 1 UP (elevators (manager main_World_1))
      (elevator_store main_World_1) = Done (Some 1%nat) /\
    elevator_store w' !! 1%nat = Some (mkElevator 2 1 IDLE [1]) /\
    out = [PanelRequesting 1; RequestReceived 1; ElevatorReceived 2 1;
           ElevatorProcessing 2 1].
Proof.
  eexists _, _. split; [apply main_second_request|].
  repeat split.
Qed.

(** C7: a call to a manager without elevators.  The strategy returns no
    elevator and the manager does nothing but write the line of the
    request: the store of elevators and panels is the one before the call,
    and no line of an observer is written. *)
Theorem C7_empty_registry_drops_call (fuel : nat) (floor : Z) (direction : Direction)
    (w : World) :
  elevators (manager w) = [] ->
  selectionStrategy (manager w) = NearestElevatorStrategy ->
  NearestElevatorStrategy floor direction (elevators (manager w)) (elevator_store w) =
    Done None /\
  ElevatorManager_addToQueue fuel floor direction w = Done (tt, w, [RequestReceived floor]).
Proof.
  intros Hnil Hstrategy.
  assert (NearestElevatorStrategy floor direction (elevators (manager w))
            (elevator_store w) = Done None) as Hsel by (rewrite Hnil; reflexivity).
  split; [exact Hsel|].
  apply ElevatorManager_addToQueue_dropped. rewrite Hstrategy. exact Hsel.
Qed.

Lemma C7_empty_registry_drops_call_witness :
  NearestElevatorStrategy 5 UP (elevators (manager initial_World))
    (elevator_store initial_World) = Done None /\
  ElevatorManager_addToQueue 0 5 UP initial_World =
    Done (tt, initial_World, [RequestReceived 5]).
Proof.
  apply (C7_empty_registry_drops_call 0 5 UP initial_World); reflexivity.
Defined.

(** ** No method of the elevator calls the manager *)

Section Quiet.
Context {S : Type}.

Lemma quiet_ret {A} (a : A) : quiet (mret a : Cmd S A).
Proof. intros s a' s' o [= <- <- <-]. constructor. Qed.

Lemma quiet_bind {A B} (c : Cmd S A) (k : A -> Cmd S B) :
  quiet c -> (forall a, quiet (k a)) -> quiet (c ≫= k).
Proof.
  intros Hc Hk s b s2 o. unfold mbind, Cmd_bind, cmd_bind.
  destruct (c s) as [[[a s1] o1]| |] eqn:Ec; try discriminate.
  destruct (k a s1) as [[[b' s2'] o2]| |] eqn:Ek; try discriminate.
  intros [= <- <- <-]. apply Forall_app. split; [eapply Hc|eapply Hk]; eassumption.
Qed.

Lemma quiet_get : quiet (get : Cmd S S).
Proof. intros s a s' o [= <- <- <-]. constructor. Qed.

Lemma quiet_put (s0 : S) : quiet (put s0).
Proof. intros s a s' o [= <- <- <-]. constructor. Qed.

Lemma quiet_modify (f : S -> S) : quiet (modify f).
Proof. intros s a s' o [= <- <- <-]. constructor. Qed.

Lemma quiet_skip : quiet (skip : Cmd S unit).
Proof. apply quiet_ret. Qed.

Lemma quiet_print (x : Output) : is_PanelUpdated x = false -> quiet (print x : Cmd S unit).
Proof. intros Hx s a s' o [= <- <- <-]. repeat constructor. exact Hx. Qed.

Lemma quiet_timeout {A} : quiet (out_of_fuel : Cmd S A).
Proof. intros s a s' o; discriminate. Qed.

Lemma quiet_undefined {A} : quiet (undefined : Cmd S A).
Proof. intros s a s' o; discriminate. Qed.

Lemma quiet_lift {A} (r : res A) : quiet (lift r : Cmd S A).
Proof. intros s a s' o; destruct r; [intros [= <- <- <-]; constructor|discriminate..]. Qed.

End Quiet.

Create HintDb quiet.
#[local] Hint Resolve quiet_ret quiet_get quiet_put quiet_modify quiet_skip
  quiet_timeout quiet_undefined quiet_lift : quiet.

Ltac quiet_step :=
  first [ apply quiet_bind; [|intros ?]
        | apply quiet_print; reflexivity
        | solve [auto with quiet] ].

Lemma quiet_setState (newState : StateType) : quiet (Elevator_setState newState).
Proof. unfold Elevator_setState. repeat quiet_step. Qed.

Lemma quiet_State_moveUp : quiet State_moveUp.
Proof.
  unfold State_moveUp. quiet_step; [quiet_step|].
  destruct (state a); auto using quiet_setState with quiet.
Qed.

Lemma quiet_State_moveDown : quiet State_moveDown.
Proof.
  unfold State_moveDown. quiet_step; [quiet_step|].
  destruct (state a); auto using quiet_setState with quiet.
Qed.

Lemma quiet_State_stop : quiet State_stop.
Proof.
  unfold State_stop. quiet_step; [quiet_step|].
  destruct (state a); auto using quiet_setState with quiet.
Qed.

Lemma quiet_queue_pop : quiet queue_pop.
Proof.
  unfold queue_pop. quiet_step; [quiet_step|].
  destruct (floorQueue a); auto with quiet.
Qed.

Lemma quiet_simulateMovement_loop (targetFloor : Z) (fuel : nat) :
  quiet (simulateMovement_loop fuel targetFloor).
Proof.
  induction fuel as [|fuel IH]; simpl.
  - quiet_step; [quiet_step|]. case_bool_decide; auto with quiet.
  - quiet_step; [quiet_step|]. case_bool_decide; [|auto with quiet].
    quiet_step; [case_bool_decide; auto with quiet|].
    quiet_step; [quiet_step|]. quiet_step; [quiet_step|]. exact IH.
Qed.

Lemma quiet_simulateMovement (fuel : nat) (targetFloor : Z) :
  quiet (Elevator_simulateMovement fuel targetFloor).
Proof.
  unfold Elevator_simulateMovement.
  quiet_step; [apply quiet_simulateMovement_loop|].
  quiet_step; [apply quiet_queue_pop|apply quiet_State_stop].
Qed.

Lemma quiet_processQueue (fuel : nat) : quiet (Elevator_processQueue fuel).
Proof.
  unfold Elevator_processQueue. quiet_step; [quiet_step|].
  destruct (floorQueue a) as [|targetFloor q]; [auto with quiet|].
  quiet_step; [quiet_step|].
  repeat case_bool_decide; auto with quiet;
    (quiet_step; [|apply quiet_simulateMovement]);
    auto using quiet_State_moveUp, quiet_State_moveDown.
Qed.

Lemma quiet_Elevator_addToQueue (fuel : nat) (floor : Z) :
  quiet (Elevator_addToQueue fuel floor).
Proof.
  unfold Elevator_addToQueue. quiet_step; [quiet_step|].
  quiet_step; [quiet_step|]. quiet_step; [quiet_step|]. apply quiet_processQueue.
Qed.

(** Whatever the store, the strategy and the call, [addToQueue] of the
    manager returns with the panels as they were and without a line of an
    observer: [notifyObservers] is on no path from a request. *)
Lemma ElevatorManager_addToQueue_notifies_nobody (fuel : nat) (floor : Z)
    (direction : Direction) (w w' : World) (out : list Output) :
  ElevatorManager_addToQueue fuel floor direction w = Done (tt, w', out) ->
  panel_store w' = panel_store w /\ manager w' = manager w /\
  Forall (fun x => is_PanelUpdated x = false) out.
Proof.
  unfold ElevatorManager_addToQueue. run_cmd.
  destruct (selectionStrategy (manager w) floor direction
              (elevators (manager w)) (elevator_store w)) as [[p|]| |];
    simpl; try discriminate.
  - unfold at_elevator.
    destruct (elevator_store w !! p) as [e|]; simpl; try discriminate.
    destruct (Elevator_addToQueue fuel floor e) as [[[[] e'] o]| |] eqn:He;
      simpl; try discriminate.
    intros [= <- <-]. repeat split. constructor; [reflexivity|].
    try rewrite app_nil_r. eapply quiet_Elevator_addToQueue. exact He.
  - intros [= <- <-]. repeat split. repeat constructor.
Qed.

(** ** Observers *)

Lemma OuterPanel_update_run (floor : Z) (st : StateType) (x : OuterPanel) :
  update floor st x =
  Done (tt, mkOuterPanel (this_floor x) floor (currentDirection x),
        [PanelUpdated (this_floor x) floor st]).
Proof. reflexivity. Qed.

Lemma at_panel_update (floor : Z) (st : StateType) (p : nat) (w : World) (x : OuterPanel) :
  panel_store w !! p = Some x ->
  at_panel p (update floor st) w =
  Done (tt, mkWorld (elevator_store w)
              (<[p:=mkOuterPanel (this_floor x) floor (currentDirection x)]> (panel_store w))
              (manager w),
        [PanelUpdated (this_floor x) floor st]).
Proof. intros Hp. unfold at_panel. rewrite Hp, OuterPanel_update_run. reflexivity. Qed.

(** The loop of [notifyObservers] over a list of observers: one call of
    [update] for each entry of the list, in the order of the list. *)
Lemma notify_loop (floor : Z) (st : StateType) (obs : list nat) : forall w labels,
  Forall2 (fun p l => this_floor <$> panel_store w !! p = Some l) obs labels ->
  exists w',
    for_each obs (fun observer => at_panel observer (update floor st)) w =
      Done (tt, w', (fun l => PanelUpdated l floor st) <$> labels) /\
    elevator_store w' = elevator_store w /\
    manager w' = manager w /\
    (forall q x, panel_store w !! q = Some x ->
       panel_store w' !! q =
       Some (if bool_decide (q ∈ obs)
             then mkOuterPanel (this_floor x) floor (currentDirection x)
             else x)).
Proof.
  induction obs as [|p obs IH]; intros w labels Hlab.
  - apply Forall2_nil_inv_l in Hlab as ->. exists w. repeat split.
    intros q x Hq. rewrite bool_decide_eq_false_2 by apply not_elem_of_nil. exact Hq.
  - apply Forall2_cons_inv_l in Hlab as (l & labels' & Hl & Hrest & ->).
    destruct (panel_store w !! p) as [x|] eqn:Hp; [|discriminate].
    simpl in Hl. injection Hl as <-.
    set (x' := mkOuterPanel (this_floor x) floor (currentDirection x)).
    set (w1 := mkWorld (elevator_store w) (<[p:=x']> (panel_store w)) (manager w)).
    assert (Hstore1 : forall q y, panel_store w !! q = Some y ->
              panel_store w1 !! q = Some (if decide (p = q) then x' else y)).
    { intros q y Hq. simpl. destruct (decide (p = q)) as [<-|Hne].
      - apply list_lookup_insert_eq. eapply lookup_lt_Some; eassumption.
      - rewrite list_lookup_insert_ne by exact Hne. exact Hq. }
    destruct (IH w1 labels') as (w' & Hrun & Hel & Hman & Hpan).
    { eapply Forall2_impl; [exact Hrest|]. intros q l Hq. simpl in Hq.
      destruct (panel_store w !! q) as [y|] eqn:Hy; [|discriminate].
      rewrite (Hstore1 q y Hy). simpl in *. injection Hq as <-.
      destruct (decide (p = q)) as [<-|]; [|reflexivity].
      rewrite Hp in Hy. injection Hy as <-. reflexivity. }
    exists w'. split; [|split; [|split]].
    + change (for_each (p :: obs) (fun observer => at_panel observer (update floor st)))
        with (cmd_bind (fun _ => for_each obs
                (fun observer => at_panel observer (update floor st)))
                (at_panel p (update floor st))).
      unfold cmd_bind. rewrite (at_panel_update floor st p w x Hp).
      fold x'. fold w1. rewrite Hrun. reflexivity.
    + rewrite Hel. reflexivity.
    + rewrite Hman. reflexivity.
    + intros q y Hq. rewrite (Hpan q _ (Hstore1 q y Hq)).
      destruct (decide (p = q)) as [<-|Hne].
      * rewrite Hp in Hq. injection Hq as <-.
        rewrite (bool_decide_eq_true_2 (p ∈ p :: obs)) by apply list_elem_of_here.
        case_bool_decide; reflexivity.
      * destruct (decide (q ∈ obs)) as [Hin|Hnin].
        -- rewrite !bool_decide_eq_true_2; [reflexivity| |exact Hin].
           apply list_elem_of_further. exact Hin.
        -- rewrite !bool_decide_eq_false_2; [reflexivity| |exact Hnin].
           intros Hin. apply elem_of_cons in Hin as [->|Hin]; [apply Hne|apply Hnin];
             done.
Qed.

(** [addPanel] registers at the end of the two vectors. *)
Lemma addPanel_loop (ps : list nat) : forall w,
  for_each ps ElevatorManager_addPanel w =
  Done (tt,
        mkWorld (elevator_store w) (panel_store w)
          (mkElevatorManager (elevators (manager w)) (panels (manager w) ++ ps)
             (observers (manager w) ++ ps) (selectionStrategy (manager w))),
        []).
Proof.
  induction ps as [|p ps IH]; intros w.
  - destruct w as [es xs [a b c d]]. simpl. rewrite !app_nil_r. reflexivity.
  - change (for_each (p :: ps) ElevatorManager_addPanel)
      with (cmd_bind (fun _ => for_each ps ElevatorManager_addPanel)
              (ElevatorManager_addPanel p)).
    unfold cmd_bind. unfold ElevatorManager_addPanel at 1. unfold modify.
    rewrite IH. simpl. rewrite <- !app_assoc. reflexivity.
Qed.

(** C8: panels are registered with [addPanel], then the manager notifies.
    [update] is called once for each registration, with the floor and the
    state of the notification, in the order of registration (earlier
    registrations first): the lines written are those of the registered
    panels in that order, as many as there are registrations, and every
    registered panel displays the floor afterwards. *)
Theorem C8_notifyObservers_fans_out_in_order (floor : Z) (st : StateType) (w0 : World)
    (ps : list nat) (xs : list OuterPanel) :
  Forall2 (fun p x => panel_store w0 !! p = Some x) (observers (manager w0) ++ ps) xs ->
  exists w1 w2 out,
    for_each ps ElevatorManager_addPanel w0 = Done (tt, w1, []) /\
    observers (manager w1) = observers (manager w0) ++ ps /\
    ElevatorManager_notifyObservers floor st w1 = Done (tt, w2, out) /\
    out = (fun x => PanelUpdated (this_floor x) floor st) <$> xs /\
    length out = length (observers (manager w1)) /\
    (forall p, p ∈ observers (manager w1) ->
       currentDisplayFloor <$> panel_store w2 !! p = Some floor) /\
    elevator_store w2 = elevator_store w0 /\
    observers (manager w2) = observers (manager w1).
Proof.
  intros Hxs.
  set (w1 := mkWorld (elevator_store w0) (panel_store w0)
          (mkElevatorManager (elevators (manager w0)) (panels (manager w0) ++ ps)
             (observers (manager w0) ++ ps) (selectionStrategy (manager w0)))).
  destruct (notify_loop floor st (observers (manager w0) ++ ps) w1 (this_floor <$> xs))
    as (w2 & Hrun & Hel & Hman & Hpan).
  { apply Forall2_fmap_r. eapply Forall2_impl; [exact Hxs|].
    intros p x Hp. simpl. rewrite Hp. reflexivity. }
  exists w1, w2, ((fun x => PanelUpdated (this_floor x) floor st) <$> xs).
  split; [apply addPanel_loop|]. split; [reflexivity|].
  split; [|split; [reflexivity|split; [|split; [|split]]]].
  - unfold ElevatorManager_notifyObservers. run_cmd. fold w1.
    change (observers (manager w1)) with (observers (manager w0) ++ ps) in *.
    rewrite Hrun. rewrite <- list_fmap_compose. reflexivity.
  - rewrite length_fmap. symmetry. eapply Forall2_length. exact Hxs.
  - intros p Hin. simpl in Hin.
    apply list_elem_of_lookup in Hin as [k Hk].
    destruct (Forall2_lookup_l _ _ _ _ _ Hxs Hk) as (x & _ & Hx).
    rewrite (Hpan p x Hx).
    rewrite bool_decide_eq_true_2; [reflexivity|].
    apply list_elem_of_lookup. exists k. exact Hk.
  - rewrite Hel. reflexivity.
  - rewrite Hman. reflexivity.
Qed.

Lemma C8_notifyObservers_fans_out_in_order_witness :
  exists w1 w2 out,
    for_each [2; 0; 1]%nat ElevatorManager_addPanel
      (mkWorld [] (panel_store main_World) (fst ElevatorManager_new)) = Done (tt, w1, []) /\
    observers (manager w1) = [] ++ [2; 0; 1]%nat /\
    ElevatorManager_notifyObservers 7 MOVING_UP w1 = Done (tt, w2, out) /\
    out = (fun x => PanelUpdated (this_floor x) 7 MOVING_UP) <$>
          [mkOuterPanel 3 1 None; mkOuterPanel 1 1 None; mkOuterPanel 2 1 None] /\
    length out = length (observers (manager w1)) /\
    (forall p, p ∈ observers (manager w1) ->
       currentDisplayFloor <$> panel_store w2 !! p = Some 7) /\
    elevator_store w2 = [] /\
    observers (manager w2) = observers (manager w1).
Proof.
  apply (C8_notifyObservers_fans_out_in_order 7 MOVING_UP
           (mkWorld [] (panel_store main_World) (fst ElevatorManager_new))
           [2; 0; 1]%nat
           [mkOuterPanel 3 1 None; mkOuterPanel 1 1 None; mkOuterPanel 2 1 None]).
  simpl. repeat constructor.
Defined.

(** ** Selection *)

Lemma select_body_run (store : list Elevator) (floor : Z) (direction : Direction)
    (best : nat * Z) (p : nat) (e : Elevator) :
  store !! p = Some e ->
  select_body store floor direction best p =
  Done (if idle_branch floor (snd best) e || up_branch floor direction (snd best) e
           || down_branch floor direction (snd best) e
        then (p, distance floor e) else best).
Proof.
  intros Hp. unfold select_body, deref. rewrite Hp. simpl.
  destruct (idle_branch floor (snd best) e); [reflexivity|].
  destruct (up_branch floor direction (snd best) e); [reflexivity|].
  destruct (down_branch floor direction (snd best) e); reflexivity.
Qed.

(** Every branch asks for a distance below the shortest one so far. *)
Lemma branches_need_shorter (floor : Z) (direction : Direction) (shortest : Z) (e : Elevator) :
  shortest <= distance floor e ->
  idle_branch floor shortest e || up_branch floor direction shortest e
    || down_branch floor direction shortest e = false.
Proof.
  intros Hle. unfold idle_branch, up_branch, down_branch.
  rewrite !bool_decide_eq_false_2; [reflexivity|intros H; lia..].
Qed.

Lemma select_loop_app (store : list Elevator) (floor : Z) (direction : Direction)
    (l1 l2 : list nat) : forall best,
  select_loop store floor direction (l1 ++ l2) best =
  select_loop store floor direction l1 best ≫= select_loop store floor direction l2.
Proof.
  induction l1 as [|p l1 IH]; intros best; simpl.
  - reflexivity.
  - destruct (select_body store floor direction best p) as [b| |]; simpl;
      [apply IH|reflexivity..].
Qed.

(** Units that are no nearer than the best one so far leave it in place. *)
Lemma select_loop_keep (store : list Elevator) (floor : Z) (direction : Direction)
    (l : list nat) (best : nat * Z) :
  Forall (fun p => exists e, store !! p = Some e /\ snd best <= distance floor e) l ->
  select_loop store floor direction l best = Done best.
Proof.
  induction 1 as [|p l (e & Hp & Hle) _ IH]; simpl.
  - reflexivity.
  - rewrite (select_body_run _ _ _ _ _ _ Hp), branches_need_shorter by exact Hle.
    exact IH.
Qed.

(** Units that take none of the branches at the shortest distance so far
    leave the best one in place. *)
Lemma select_loop_no_branch (store : list Elevator) (floor : Z) (direction : Direction)
    (l : list nat) (best : nat * Z) :
  Forall (fun p => exists e, store !! p = Some e /\
            idle_branch floor (snd best) e = false /\
            up_branch floor direction (snd best) e = false /\
            down_branch floor direction (snd best) e = false) l ->
  select_loop store floor direction l best = Done best.
Proof.
  induction 1 as [|p l (e & Hp & Hi & Hu & Hd) _ IH]; simpl.
  - reflexivity.
  - rewrite (select_body_run _ _ _ _ _ _ Hp), Hi, Hu, Hd. exact IH.
Qed.

(** The loop ends, on the best one it started with or on a unit of the list
    together with its distance, which is then shorter. *)
Lemma select_loop_total (store : list Elevator) (floor : Z) (direction : Direction)
    (l : list nat) : forall best,
  Forall (fun p => is_Some (store !! p)) l ->
  exists best',
    select_loop store floor direction l best = Done best' /\
    (best' = best \/
     (fst best' ∈ l /\ snd best' < snd best /\
      exists e, store !! fst best' = Some e /\ snd best' = distance floor e)).
Proof.
  induction l as [|p l IH]; intros best Hall.
  - exists best. split; [reflexivity|left; reflexivity].
  - apply Forall_cons in Hall as [[e Hp] Hall]. simpl.
    rewrite (select_body_run _ _ _ _ _ _ Hp). simpl.
    destruct (idle_branch floor (snd best) e || up_branch floor direction (snd best) e
              || down_branch floor direction (snd best) e) eqn:Hb.
    + assert (distance floor e < snd best) as Hlt.
      { destruct (decide (snd best <= distance floor e)) as [Hle|]; [|lia].
        rewrite branches_need_shorter in Hb by exact Hle. discriminate. }
      destruct (IH (p, distance floor e) Hall) as (best' & Hrun & [->|(Hin & Hlt' & Hex)]).
      * exists (p, distance floor e). split; [exact Hrun|]. right. simpl.
        split; [apply list_elem_of_here|]. split; [exact Hlt|]. exists e. done.
      * exists best'. split; [exact Hrun|]. right.
        split; [apply list_elem_of_further; exact Hin|]. simpl in Hlt'.
        split; [lia|exact Hex].
    + destruct (IH best Hall) as (best' & Hrun & [->|(Hin & Hlt' & Hex)]).
      * exists best. split; [exact Hrun|left; reflexivity].
      * exists best'. split; [exact Hrun|]. right.
        split; [apply list_elem_of_further; exact Hin|]. done.
Qed.

Lemma NearestElevatorStrategy_unfold (floor : Z) (direction : Direction)
    (store : list Elevator) (p0 : nat) (rest : list nat) (e0 : Elevator) :
  store !! p0 = Some e0 ->
  NearestElevatorStrategy floor direction (p0 :: rest) store =
  match select_loop store floor direction (p0 :: rest) (p0, distance floor e0) with
  | Done best => Done (Some (fst best))
  | OutOfFuel => OutOfFuel
  | Undefined => Undefined
  end.
Proof. intros H. unfold NearestElevatorStrategy, deref. rewrite H. reflexivity. Qed.

(** C10: on a list of candidates that is not empty the strategy returns
    one of the candidates, never [nullptr]; when no candidate takes the
    idle branch or one of the two direction branches, it is the first of
    the list. *)
Theorem C10_nonempty_candidates_select_some (floor : Z) (direction : Direction)
    (store : list Elevator) (p0 : nat) (rest : list nat) :
  Forall (fun p => is_Some (store !! p)) (p0 :: rest) ->
  exists p e0,
    store !! p0 = Some e0 /\
    NearestElevatorStrategy floor direction (p0 :: rest) store = Done (Some p) /\
    p ∈ p0 :: rest /\
    (Forall (fun q => exists e, store !! q = Some e /\
               idle_branch floor (distance floor e0) e = false /\
               up_branch floor direction (distance floor e0) e = false /\
               down_branch floor direction (distance floor e0) e = false) (p0 :: rest) ->
     p = p0).
Proof.
  intros Hall. pose proof Hall as Hall'.
  apply Forall_cons in Hall' as [[e0 Hp0] _].
  destruct (select_loop_total store floor direction (p0 :: rest) (p0, distance floor e0) Hall)
    as (best' & Hrun & Hbest).
  exists (fst best'), e0. split; [exact Hp0|]. split; [|split].
  - unfold NearestElevatorStrategy, deref. rewrite Hp0. simpl.
    simpl in Hrun. rewrite Hrun. reflexivity.
  - destruct Hbest as [->|(Hin & _)]; [apply list_elem_of_here|exact Hin].
  - intros Hno.
    rewrite (select_loop_no_branch store floor direction (p0 :: rest)
               (p0, distance floor e0) Hno) in Hrun.
    injection Hrun as <-. reflexivity.
Qed.

Lemma C10_nonempty_candidates_select_some_witness :
  exists p e0,
    elevator_store main_World_1 !! 0%nat = Some e0 /\
    NearestElevatorStrategy 2 UP [0; 1]%nat (elevator_store main_World_1) = Done (Some p) /\
    p ∈ [0; 1]%nat /\
    (Forall (fun q => exists e, elevator_store main_World_1 !! q = Some e /\
               idle_branch 2 (distance 2 e0) e = false /\
               up_branch 2 UP (distance 2 e0) e = false /\
               down_branch 2 UP (distance 2 e0) e = false) [0; 1]%nat ->
     p = 0%nat).
Proof.
  apply (C10_nonempty_candidates_select_some 2 UP (elevator_store main_World_1) 0 [1%nat]).
  repeat constructor; simpl; eexists; reflexivity.
Defined.

(** The counterexample to the idle preference at equal distance: a unit
    moving up at floor 1 is listed before an idle unit at floor 5, and the
    call is for floor 3, going up.  Both are two storeys away; the strategy
    starts from the first of the list and replaces it only by a unit that
    is nearer, so the moving unit is returned. *)
Lemma C5_moving_unit_listed_first_wins : ~ idle_wins_every_tie.
Proof.
  intros H.
  specialize (H 3 UP [mkElevator 1 1 MOVING_UP []; mkElevator 2 5 IDLE []]
                [0; 1]%nat 1%nat 0%nat (mkElevator 2 5 IDLE []) (mkElevator 1 1 MOVING_UP [])).
  assert (NearestElevatorStrategy 3 UP [0; 1]%nat
            [mkElevator 1 1 MOVING_UP []; mkElevator 2 5 IDLE []] = Done (Some 0%nat))
    as Hsel by reflexivity.
  rewrite Hsel in H.
  assert (Done (Some 0%nat) = Done (Some 1%nat)) as Habs; [|discriminate Habs].
  apply H; try reflexivity.
  - apply list_elem_of_further, list_elem_of_here.
  - apply list_elem_of_here.
  - left. simpl. repeat split.
Qed.

(** With two candidates at the same distance the first listed is
    returned, whatever their states. *)
Lemma first_listed_wins_tie (floor : Z) (direction : Direction) (store : list Elevator)
    (p0 p1 : nat) (e0 e1 : Elevator) :
  store !! p0 = Some e0 -> store !! p1 = Some e1 ->
  distance floor e0 = distance floor e1 ->
  NearestElevatorStrategy floor direction [p0; p1] store = Done (Some p0).
Proof.
  intros H0 H1 Heq. rewrite (NearestElevatorStrategy_unfold _ _ _ _ _ _ H0).
  rewrite (select_loop_keep store floor direction [p0; p1] (p0, distance floor e0));
    [reflexivity|].
  repeat constructor; eexists; (split; [eassumption|simpl; lia]).
Qed.

(** C5, amended: an idle unit is selected, against any unit at the same
    distance that is listed after it (a unit moving toward the call among
    them), when every unit listed before it is farther from the floor of
    the call and no unit listed after it is nearer. *)
Theorem C5_idle_unit_listed_first_wins_tie (floor : Z) (direction : Direction)
    (store : list Elevator) (before after : list nat) (pi : nat) (ei : Elevator) :
  store !! pi = Some ei -> state ei = IDLE ->
  Forall (fun q => exists e, store !! q = Some e /\
            distance floor ei < distance floor e) before ->
  Forall (fun q => exists e, store !! q = Some e /\
            distance floor ei <= distance floor e) after ->
  NearestElevatorStrategy floor direction (before ++ pi :: after) store = Done (Some pi).
Proof.
  intros Hpi Hidle Hbefore Hafter.
  assert (Hkeep : select_loop store floor direction after (pi, distance floor ei) =
                  Done (pi, distance floor ei))
    by (apply select_loop_keep; exact Hafter).
  destruct before as [|b0 bs].
  - change ([] ++ pi :: after) with (pi :: after).
    rewrite (NearestElevatorStrategy_unfold _ _ _ _ _ _ Hpi).
    rewrite (select_loop_keep store floor direction (pi :: after) (pi, distance floor ei));
      [reflexivity|].
    constructor; [|exact Hafter]. exists ei. split; [exact Hpi|simpl; lia].
  - pose proof Hbefore as Hb0. apply Forall_cons in Hb0 as [(e0 & Hp0 & Hd0) _].
    change ((b0 :: bs) ++ pi :: after) with (b0 :: (bs ++ pi :: after)).
    rewrite (NearestElevatorStrategy_unfold _ _ _ _ _ _ Hp0).
    change (b0 :: (bs ++ pi :: after)) with ((b0 :: bs) ++ pi :: after).
    rewrite select_loop_app.
    destruct (select_loop_total store floor direction (b0 :: bs) (b0, distance floor e0))
      as (best' & Hrun & Hbest).
    { eapply Forall_impl; [exact Hbefore|]. intros q (e & Hq & _). eexists; exact Hq. }
    rewrite Hrun.
    assert (distance floor ei < snd best') as Hfar.
    { destruct Hbest as [->|(Hin & _ & e & He & ->)]; [exact Hd0|].
      rewrite Forall_forall in Hbefore.
      destruct (Hbefore _ Hin) as (e' & He' & Hlt). congruence. }
    simpl. rewrite (select_body_run _ _ _ _ _ _ Hpi).
    unfold idle_branch at 1.
    rewrite bool_decide_eq_true_2 by (split; assumption). simpl.
    rewrite Hkeep. reflexivity.
Qed.

Lemma C5_idle_unit_listed_first_wins_tie_witness :
  NearestElevatorStrategy 3 UP ([2%nat] ++ 1%nat :: [0%nat])
    [mkElevator 1 1 MOVING_UP []; mkElevator 2 5 IDLE []; mkElevator 3 9 MOVING_DOWN []] =
  Done (Some 1%nat).
Proof.
  apply (C5_idle_unit_listed_first_wins_tie 3 UP
           [mkElevator 1 1 MOVING_UP []; mkElevator 2 5 IDLE []; mkElevator 3 9 MOVING_DOWN []]
           [2%nat] [0%nat] 1%nat (mkElevator 2 5 IDLE [])).
  - reflexivity.
  - reflexivity.
  - repeat constructor. eexists. split; [reflexivity|]. vm_compute. reflexivity.
  - repeat constructor. eexists. split; [reflexivity|]. vm_compute. discriminate.
Defined.

(** * Further properties of the code *)

(** ** One call of [addToQueue] *)

(** What [addToQueue] does on any elevator: the request is appended, and
    the head of the queue is looked at, whether it is the new request or an
    older one. *)
Lemma Elevator_addToQueue_head (fuel : nat) (floor : Z) (e : Elevator) :
  let h := hd floor (floorQueue e) in
  let q := tail (floorQueue e ++ [floor]) in
  Int.int_range (currentFloor e) -> Int.int_range h ->
  (Z.to_nat (Z.abs (h - currentFloor e)) <= fuel)%nat ->
  Elevator_addToQueue fuel floor e =
  if decide (h = currentFloor e) then
    Done (tt, set_floorQueue (floorQueue e ++ [floor]) e,
          [ElevatorReceived (id e) floor; ElevatorProcessing (id e) h])
  else
    Done (tt, mkElevator (id e) h IDLE q,
          [ElevatorReceived (id e) floor; ElevatorProcessing (id e) h] ++
          (if decide (state e = trip_state (currentFloor e) h) then []
           else [StateChanged (id e) (trip_state (currentFloor e) h)]) ++
          (ElevatorAtFloor (id e) <$> trip_floors (currentFloor e) h) ++
          [StateChanged (id e) IDLE]).
Proof.
  destruct e as [i f s q0]. simpl. intros Hf Hh Hfuel.
  assert (exists q1, q0 ++ [floor] = hd floor q0 :: q1 /\ tail (q0 ++ [floor]) = q1)
    as (q1 & Hq & Htl) by (destruct q0; simpl; eauto).
  rewrite Htl. set (h := hd floor q0) in *.
  unfold Elevator_addToQueue, Elevator_processQueue, trip_state. run_cmd.
  unfold set_floorQueue; simpl. rewrite Hq.
  destruct (decide (h = f)) as [->|Hne].
  - rewrite !bool_decide_eq_false_2 by lia. reflexivity.
  - destruct (decide (h > f)) as [Hup|Hdown].
    + rewrite !bool_decide_eq_true_2 by exact Hup.
      destruct s; simpl; unfold set_state; simpl;
        rewrite (simulateMovement_reaches fuel h (mkElevator i f MOVING_UP (h :: q1)))
          by (simpl; (assumption || discriminate));
        reflexivity.
    + rewrite !(bool_decide_eq_false_2 (h > f)) by exact Hdown.
      rewrite bool_decide_eq_true_2 by lia.
      destruct s; simpl; unfold set_state; simpl;
        rewrite (simulateMovement_reaches fuel h (mkElevator i f MOVING_DOWN (h :: q1)))
          by (simpl; (assumption || discriminate));
        reflexivity.
Qed.

(** X1: one call of [addToQueue] serves at most one request, the one at the
    head of the queue, which is the new one only on an empty queue.  If the
    head is another floor, the elevator travels there storey by storey,
    pops it and stops in [Idle] with the rest of the queue waiting; if it
    is the floor the elevator stands at, the new request is appended and
    nothing else happens. *)
Theorem X1_addToQueue_serves_the_head (fuel : nat) (floor : Z) (e : Elevator) :
  Int.int_range (currentFloor e) -> Int.int_range (hd floor (floorQueue e)) ->
  (Z.to_nat (Z.abs (hd floor (floorQueue e) - currentFloor e)) <= fuel)%nat ->
  Elevator_addToQueue fuel floor e =
  if decide (hd floor (floorQueue e) = currentFloor e) then
    Done (tt, set_floorQueue (floorQueue e ++ [floor]) e,
          [ElevatorReceived (id e) floor;
           ElevatorProcessing (id e) (hd floor (floorQueue e))])
  else
    Done (tt, mkElevator (id e) (hd floor (floorQueue e)) IDLE
                (tail (floorQueue e ++ [floor])),
          [ElevatorReceived (id e) floor;
           ElevatorProcessing (id e) (hd floor (floorQueue e))] ++
          (if decide (state e = trip_state (currentFloor e) (hd floor (floorQueue e)))
           then []
           else [StateChanged (id e)
                   (trip_state (currentFloor e) (hd floor (floorQueue e)))]) ++
          (ElevatorAtFloor (id e) <$>
             trip_floors (currentFloor e) (hd floor (floorQueue e))) ++
          [StateChanged (id e) IDLE]).
Proof. apply Elevator_addToQueue_head. Qed.

Lemma X1_addToQueue_serves_the_head_witness :
  Elevator_addToQueue 3 9 (mkElevator 4 5 MOVING_UP [2; 7]) =
  Done (tt, mkElevator 4 2 IDLE [7; 9],
        [ElevatorReceived 4 9; ElevatorProcessing 4 2; StateChanged 4 MOVING_DOWN;
         ElevatorAtFloor 4 4; ElevatorAtFloor 4 3; ElevatorAtFloor 4 2;
         StateChanged 4 IDLE]).
Proof.
  apply (X1_addToQueue_serves_the_head 3 9 (mkElevator 4 5 MOVING_UP [2; 7])).
  - unfold Int.int_range, Int.INT_MIN, Int.INT_MAX; simpl; lia.
  - unfold Int.int_range, Int.INT_MIN, Int.INT_MAX; simpl; lia.
  - simpl; lia.
Defined.

(** X2: once the head of the queue is the floor the elevator stands at, the
    elevator is stuck: whatever floor is requested next, the request is
    appended behind the head, the elevator neither moves nor changes state,
    and the head stays where it is. *)
Theorem X2_blocked_queue_only_grows (fuel : nat) (g : Z) (e : Elevator) :
  blocked e ->
  Elevator_addToQueue fuel g e =
    Done (tt, set_floorQueue (floorQueue e ++ [g]) e,
          [ElevatorReceived (id e) g; ElevatorProcessing (id e) (currentFloor e)]) /\
  blocked (set_floorQueue (floorQueue e ++ [g]) e).
Proof.
  destruct e as [i f s [|h q]]; unfold blocked; simpl; [discriminate|].
  intros [= ->]. split; [apply head_at_current_floor_blocks|reflexivity].
Qed.

Lemma X2_blocked_queue_only_grows_witness :
  Elevator_addToQueue 0 8 (mkElevator 2 1 IDLE [1; 4]) =
    Done (tt, set_floorQueue ([1; 4] ++ [8]) (mkElevator 2 1 IDLE [1; 4]),
          [ElevatorReceived 2 8; ElevatorProcessing 2 1]) /\
  blocked (set_floorQueue ([1; 4] ++ [8]) (mkElevator 2 1 IDLE [1; 4])).
Proof.
  apply (X2_blocked_queue_only_grows 0 8 (mkElevator 2 1 IDLE [1; 4])). reflexivity.
Defined.

(** X3: requests none of which is for the floor the elevator stands at when
    it arrives are served in the order of arrival, each when it arrives: the
    elevator ends at the last floor requested, idle, with an empty queue,
    and it has written the lines of the trips in that order. *)
Theorem X3_requests_served_in_arrival_order (fuel : nat) (i cur : Z) (floors : list Z) :
  Int.int_range cur -> Forall Int.int_range floors ->
  no_degenerate cur floors -> enough_fuel fuel ->
  for_each floors (Elevator_addToQueue fuel) (mkElevator i cur IDLE []) =
  Done (tt, mkElevator i (default cur (last floors)) IDLE [], served_lines i cur floors).
Proof. intros. apply requests_served_in_order; assumption. Qed.

Lemma X3_requests_served_in_arrival_order_witness :
  for_each [3; 1; 3] (Elevator_addToQueue (Z.to_nat (2 ^ 32))) (mkElevator 7 1 IDLE []) =
  Done (tt, mkElevator 7 3 IDLE [], served_lines 7 1 [3; 1; 3]).
Proof.
  apply (X3_requests_served_in_arrival_order (Z.to_nat (2 ^ 32)) 7 1 [3; 1; 3]).
  - unfold Int.int_range, Int.INT_MIN, Int.INT_MAX; lia.
  - repeat constructor; unfold Int.INT_MIN, Int.INT_MAX; lia.
  - simpl. repeat split; lia.
  - unfold enough_fuel. lia.
Defined.

(** ** The id of an elevator *)

Lemma keeps_id_bind {A B} (c : Cmd Elevator A) (k : A -> Cmd Elevator B) :
  keeps_id c -> (forall a, keeps_id (k a)) -> keeps_id (c ≫= k).
Proof.
  intros Hc Hk e b e2 o. unfold mbind, Cmd_bind, cmd_bind.
  destruct (c e) as [[[a e1] o1]| |] eqn:Ec; try discriminate.
  destruct (k a e1) as [[[b' e2'] o2]| |] eqn:Ek; try discriminate.
  intros [= <- <- <-]. rewrite (Hk _ _ _ _ _ Ek). eapply Hc. exact Ec.
Qed.

Lemma keeps_id_get : keeps_id get.
Proof. intros e a e' o [= <- <- <-]. reflexivity. Qed.

Lemma keeps_id_skip : keeps_id skip.
Proof. intros e a e' o [= <- <- <-]. reflexivity. Qed.

Lemma keeps_id_print (x : Output) : keeps_id (print x).
Proof. intros e a e' o [= <- <- <-]. reflexivity. Qed.

Lemma keeps_id_modify (f : Elevator -> Elevator) :
  (forall e, id (f e) = id e) -> keeps_id (modify f).
Proof. intros Hf e a e' o [= <- <- <-]. apply Hf. Qed.

Lemma keeps_id_out_of_fuel {A} : keeps_id (out_of_fuel : Cmd Elevator A).
Proof. intros e a e' o; discriminate. Qed.

Lemma keeps_id_State_request (r : Request) : keeps_id (State_request r).
Proof.
  intros e a e' o. rewrite State_request_table. intros [= <- <- <-]. reflexivity.
Qed.

Lemma keeps_id_queue_pop : keeps_id queue_pop.
Proof.
  intros [i f s [|x q]] a e' o; [discriminate|]. intros [= <- <- <-]. reflexivity.
Qed.

Lemma keeps_id_simulateMovement_loop (targetFloor : Z) (fuel : nat) :
  keeps_id (simulateMovement_loop fuel targetFloor).
Proof.
  induction fuel as [|fuel IH]; simpl.
  - apply keeps_id_bind; [apply keeps_id_get|]. intros e.
    case_bool_decide; [apply keeps_id_out_of_fuel|apply keeps_id_skip].
  - apply keeps_id_bind; [apply keeps_id_get|]. intros e.
    case_bool_decide; [|apply keeps_id_skip].
    apply keeps_id_bind.
    { case_bool_decide; apply keeps_id_modify; reflexivity. }
    intros _. apply keeps_id_bind; [apply keeps_id_get|]. intros e1.
    apply keeps_id_bind; [apply keeps_id_print|]. intros _. exact IH.
Qed.

Lemma keeps_id_simulateMovement (fuel : nat) (targetFloor : Z) :
  keeps_id (Elevator_simulateMovement fuel targetFloor).
Proof.
  unfold Elevator_simulateMovement.
  apply keeps_id_bind; [apply keeps_id_simulateMovement_loop|]. intros _.
  apply keeps_id_bind; [apply keeps_id_queue_pop|]. intros _.
  apply (keeps_id_State_request requestStop).
Qed.

Lemma keeps_id_processQueue (fuel : nat) : keeps_id (Elevator_processQueue fuel).
Proof.
  unfold Elevator_processQueue.
  apply keeps_id_bind; [apply keeps_id_get|]. intros e.
  destruct (floorQueue e) as [|targetFloor q]; [apply keeps_id_skip|].
  apply keeps_id_bind; [apply keeps_id_print|]. intros _.
  repeat case_bool_decide; try apply keeps_id_skip;
    (apply keeps_id_bind; [|intros _; apply keeps_id_simulateMovement]).
  - apply (keeps_id_State_request requestUp).
  - apply (keeps_id_State_request requestDown).
Qed.

Lemma keeps_id_addToQueue (fuel : nat) (floor : Z) :
  keeps_id (Elevator_addToQueue fuel floor).
Proof.
  unfold Elevator_addToQueue.
  apply keeps_id_bind; [apply keeps_id_modify; reflexivity|]. intros _.
  apply keeps_id_bind; [apply keeps_id_get|]. intros e.
  apply keeps_id_bind; [apply keeps_id_print|]. intros _.
  apply keeps_id_processQueue.
Qed.

(** ** One call to the manager *)

(** The two ways a call to the manager returns. *)
Lemma ElevatorManager_addToQueue_inv (fuel : nat) (floor : Z) (direction : Direction)
    (w w' : World) (out : list Output) :
  ElevatorManager_addToQueue fuel floor direction w = Done (tt, w', out) ->
  (selectionStrategy (manager w) floor direction
     (elevators (manager w)) (elevator_store w) = Done None /\
   w' = w /\ out = [RequestReceived floor]) \/
  (exists p e e' o,
     selectionStrategy (manager w) floor direction
       (elevators (manager w)) (elevator_store w) = Done (Some p) /\
     elevator_store w !! p = Some e /\
     Elevator_addToQueue fuel floor e = Done (tt, e', o) /\
     w' = mkWorld (<[p:=e']> (elevator_store w)) (panel_store w) (manager w) /\
     out = RequestReceived floor :: o).
Proof.
  unfold ElevatorManager_addToQueue. run_cmd.
  destruct (selectionStrategy (manager w) floor direction
              (elevators (manager w)) (elevator_store w)) as [[p|]| |] eqn:Hsel;
    simpl; try discriminate.
  - unfold at_elevator.
    destruct (elevator_store w !! p) as [e|] eqn:Hp; simpl; try discriminate.
    destruct (Elevator_addToQueue fuel floor e) as [[[[] e'] o]| |] eqn:He;
      simpl; try discriminate.
    intros [= <- <-]. right. exists p, e, e', o.
    rewrite ?app_nil_r. repeat split; (reflexivity || assumption).
  - intros [= <- <-]. left. repeat split; reflexivity.
Qed.

(** X4: a call to the manager never reaches an observer, whatever the
    store, the strategy and the call: when it returns, the panels and the
    manager's registries are as before and no line of an [update] has been
    written. *)
Theorem X4_call_notifies_no_observer (fuel : nat) (floor : Z) (direction : Direction)
    (w w' : World) (out : list Output) :
  ElevatorManager_addToQueue fuel floor direction w = Done (tt, w', out) ->
  panel_store w' = panel_store w /\ manager w' = manager w /\
  Forall (fun x => is_PanelUpdated x = false) out.
Proof. apply ElevatorManager_addToQueue_notifies_nobody. Qed.

Lemma X4_call_notifies_no_observer_witness :
  panel_store main_World_1 = panel_store main_World /\
  manager main_World_1 = manager main_World /\
  Forall (fun x => is_PanelUpdated x = false)
    [RequestReceived 3; ElevatorReceived 1 3; ElevatorProcessing 1 3;
     StateChanged 1 MOVING_UP; ElevatorAtFloor 1 2; ElevatorAtFloor 1 3;
     StateChanged 1 IDLE].
Proof.
  apply (X4_call_notifies_no_observer 2 3 DOWN main_World). reflexivity.
Defined.

(** X5: a call to the manager changes at most one elevator, the one the
    strategy returned: the store keeps its size, every elevator keeps its
    id, and an elevator the strategy did not return is as before. *)
Theorem X5_call_changes_only_the_selected (fuel : nat) (floor : Z) (direction : Direction)
    (w w' : World) (out : list Output) :
  ElevatorManager_addToQueue fuel floor direction w = Done (tt, w', out) ->
  length (elevator_store w') = length (elevator_store w) /\
  (forall q e, elevator_store w !! q = Some e ->
     exists e', elevator_store w' !! q = Some e' /\ id e' = id e) /\
  (forall q,
     selectionStrategy (manager w) floor direction
       (elevators (manager w)) (elevator_store w) ≠ Done (Some q) ->
     elevator_store w' !! q = elevator_store w !! q).
Proof.
  intros Hrun.
  apply ElevatorManager_addToQueue_inv in Hrun
    as [(Hsel & -> & _)|(p & e & e' & o & Hsel & Hp & He & -> & _)].
  - repeat split; eauto.
  - simpl. split; [apply length_insert|]. split.
    + intros q x Hq. destruct (decide (p = q)) as [<-|Hne].
      * exists e'. split.
        -- apply list_lookup_insert_eq. eapply lookup_lt_Some; exact Hp.
        -- rewrite Hp in Hq. injection Hq as <-. eapply keeps_id_addToQueue; exact He.
      * exists x. rewrite list_lookup_insert_ne by exact Hne. split; [exact Hq|reflexivity].
    + intros q Hq. apply list_lookup_insert_ne. intros ->. apply Hq. exact Hsel.
Qed.

Lemma X5_call_changes_only_the_selected_witness :
  length (elevator_store main_World_1) = length (elevator_store main_World) /\
  (forall q e, elevator_store main_World !! q = Some e ->
     exists e', elevator_store main_World_1 !! q = Some e' /\ id e' = id e) /\
  (forall q,
     selectionStrategy (manager main_World) 3 DOWN
       (elevators (manager main_World)) (elevator_store main_World) ≠ Done (Some q) ->
     elevator_store main_World_1 !! q = elevator_store main_World !! q).
Proof.
  apply (X5_call_changes_only_the_selected 2 3 DOWN main_World main_World_1
           [RequestReceived 3; ElevatorReceived 1 3; ElevatorProcessing 1 3;
            StateChanged 1 MOVING_UP; ElevatorAtFloor 1 2; ElevatorAtFloor 1 3;
            StateChanged 1 IDLE]).
  reflexivity.
Defined.

(** X6: an elevator whose queue is headed by the floor it stands at never
    moves again: whatever call the manager receives and whatever the
    strategy returns, that elevator has the same floor and the same state
    when the call returns, and its queue is still headed by that floor. *)
Theorem X6_blocked_elevator_never_moves (fuel : nat) (floor : Z) (direction : Direction)
    (w w' : World) (out : list Output) (q : nat) (e : Elevator) :
  ElevatorManager_addToQueue fuel floor direction w = Done (tt, w', out) ->
  elevator_store w !! q = Some e -> blocked e ->
  exists e',
    elevator_store w' !! q = Some e' /\
    currentFloor e' = currentFloor e /\ state e' = state e /\ blocked e' /\
    (floorQueue e' = floorQueue e \/ floorQueue e' = floorQueue e ++ [floor]).
Proof.
  intros Hrun Hq Hblocked.
  apply ElevatorManager_addToQueue_inv in Hrun
    as [(_ & -> & _)|(p & x & x' & o & _ & Hp & Hx & -> & _)].
  - exists e. repeat split; auto.
  - simpl. destruct (decide (p = q)) as [->|Hne].
    + rewrite Hq in Hp. injection Hp as <-.
      destruct e as [i f s [|h t]]; unfold blocked in Hblocked; simpl in Hblocked;
        [discriminate|]. injection Hblocked as ->.
      rewrite head_at_current_floor_blocks in Hx. injection Hx as <- _.
      eexists. split; [apply list_lookup_insert_eq; eapply lookup_lt_Some; exact Hq|].
      repeat split; auto.
    + exists e. rewrite list_lookup_insert_ne by exact Hne. repeat split; auto.
Qed.

Lemma X6_blocked_elevator_never_moves_witness :
  exists e',
    elevator_store main_World_3 !! 1%nat = Some e' /\
    currentFloor e' = currentFloor (mkElevator 2 1 IDLE [1]) /\
    state e' = state (mkElevator 2 1 IDLE [1]) /\ blocked e' /\
    (floorQueue e' = floorQueue (mkElevator 2 1 IDLE [1]) \/
     floorQueue e' = floorQueue (mkElevator 2 1 IDLE [1]) ++ [2]).
Proof.
  apply (X6_blocked_elevator_never_moves 1 2 UP main_World_2 main_World_3
           [RequestReceived 2; ElevatorReceived 1 2; ElevatorProcessing 1 2;
            StateChanged 1 MOVING_DOWN; ElevatorAtFloor 1 2; StateChanged 1 IDLE]
           1%nat (mkElevator 2 1 IDLE [1])); reflexivity.
Defined.

(** ** Calls on a store at rest *)






(** ** What the strategy prefers *)

(** A unit that takes one of the branches is nearer than the shortest
    distance so far, and idle or moving toward the call. *)
Lemma branch_taken (floor : Z) (direction : Direction) (shortest : Z) (e : Elevator) :
  idle_branch floor shortest e || up_branch floor direction shortest e
    || down_branch floor direction shortest e = true ->
  distance floor e < shortest /\ (state e = IDLE \/ moving_toward floor direction e).
Proof.
  unfold idle_branch, up_branch, down_branch, moving_toward. intros Hb.
  apply orb_true_iff in Hb as [Hb|Hb]; [apply orb_true_iff in Hb as [Hb|Hb]|];
    apply bool_decide_eq_true in Hb; tauto.
Qed.

(** An idle unit that takes no branch is no nearer than the shortest
    distance so far. *)
Lemma idle_not_taken (floor : Z) (direction : Direction) (shortest : Z) (e : Elevator) :
  state e = IDLE ->
  idle_branch floor shortest e || up_branch floor direction shortest e
    || down_branch floor direction shortest e = false ->
  shortest <= distance floor e.
Proof.
  unfold idle_branch. intros Hidle Hb.
  apply orb_false_iff in Hb as [Hb _]. apply orb_false_iff in Hb as [Hb _].
  apply bool_decide_eq_false in Hb.
  destruct (decide (shortest <= distance floor e)) as [Hle|Hgt]; [exact Hle|].
  exfalso. apply Hb. split; [exact Hidle|lia].
Qed.

(** The shortest distance only decreases along the loop, and it ends no
    longer than the distance of any idle unit of the list. *)
Lemma select_loop_beats_idle (store : list Elevator) (floor : Z) (direction : Direction)
    (l : list nat) : forall best best',
  select_loop store floor direction l best = Done best' ->
  snd best' <= snd best /\
  Forall (fun q => forall e, store !! q = Some e -> state e = IDLE ->
            snd best' <= distance floor e) l.
Proof.
  induction l as [|p l IH]; intros best best'; simpl.
  - intros [= <-]. split; [lia|constructor].
  - unfold select_body at 1, deref.
    destruct (store !! p) as [e|] eqn:Hp; simpl; [|discriminate].
    fold (deref store p). intros Hrun.
    assert (Hbody : select_body store floor direction best p =
              Done (if idle_branch floor (snd best) e || up_branch floor direction (snd best) e
                       || down_branch floor direction (snd best) e
                    then (p, distance floor e) else best))
      by (apply select_body_run; exact Hp).
    set (best1 := if idle_branch floor (snd best) e || up_branch floor direction (snd best) e
                     || down_branch floor direction (snd best) e
                  then (p, distance floor e) else best) in *.
    assert (select_loop store floor direction l best1 = Done best') as Hrest.
    { revert Hrun. unfold best1.
      destruct (idle_branch floor (snd best) e); [exact (fun H => H)|].
      destruct (up_branch floor direction (snd best) e); [exact (fun H => H)|].
      destruct (down_branch floor direction (snd best) e); exact (fun H => H). }
    destruct (IH best1 best' Hrest) as [Hle Hall].
    destruct (idle_branch floor (snd best) e || up_branch floor direction (snd best) e
              || down_branch floor direction (snd best) e) eqn:Hb.
    + apply branch_taken in Hb as [Hlt _]. subst best1. simpl in Hle.
      split; [lia|]. constructor; [|exact Hall].
      intros e1 He1 _. rewrite Hp in He1. injection He1 as <-. exact Hle.
    + subst best1. split; [exact Hle|]. constructor; [|exact Hall].
      intros e1 He1 Hidle. rewrite Hp in He1. injection He1 as <-.
      pose proof (idle_not_taken _ _ _ _ Hidle Hb). lia.
Qed.

(** The loop ends on the best one it started with, or on a unit of the
    list that is nearer, and idle or moving toward the call. *)
Lemma select_loop_eligible (store : list Elevator) (floor : Z) (direction : Direction)
    (l : list nat) : forall best best',
  select_loop store floor direction l best = Done best' ->
  best' = best \/
  (fst best' ∈ l /\ snd best' < snd best /\
   exists e, store !! fst best' = Some e /\ snd best' = distance floor e /\
             (state e = IDLE \/ moving_toward floor direction e)).
Proof.
  induction l as [|p l IH]; intros best best'; simpl.
  - intros [= <-]. left. reflexivity.
  - destruct (store !! p) as [e|] eqn:Hp;
      [|unfold select_body, deref; rewrite Hp; discriminate].
    rewrite (select_body_run _ _ _ _ _ _ Hp). simpl.
    destruct (idle_branch floor (snd best) e || up_branch floor direction (snd best) e
              || down_branch floor direction (snd best) e) eqn:Hb; intros Hrun.
    + apply branch_taken in Hb as [Hlt Hel]. right.
      destruct (IH _ _ Hrun) as [->|(Hin & Hlt' & e1 & He1 & Hd1 & Hel1)]; simpl in *.
      * split; [apply list_elem_of_here|]. split; [exact Hlt|]. exists e. auto.
      * split; [apply list_elem_of_further; exact Hin|]. split; [lia|]. exists e1. auto.
    + destruct (IH _ _ Hrun) as [->|(Hin & Hlt' & Hex)]; [left; reflexivity|right].
      split; [apply list_elem_of_further; exact Hin|]. split; [exact Hlt'|exact Hex].
Qed.

Lemma NearestElevatorStrategy_inv (floor : Z) (direction : Direction)
    (store : list Elevator) (p0 : nat) (rest : list nat) (e0 : Elevator) (p : nat) :
  store !! p0 = Some e0 ->
  NearestElevatorStrategy floor direction (p0 :: rest) store = Done (Some p) ->
  exists best',
    select_loop store floor direction (p0 :: rest) (p0, distance floor e0) = Done best' /\
    fst best' = p.
Proof.
  intros Hp0. rewrite (NearestElevatorStrategy_unfold _ _ _ _ _ _ Hp0).
  destruct (select_loop store floor direction (p0 :: rest) (p0, distance floor e0))
    as [best'| |]; [|discriminate..].
  intros [= <-]. exists best'. split; reflexivity.
Qed.

(** X8: the elevator the strategy returns is at least as near to the floor
    of the call as every idle candidate, and as the first candidate: when
    all candidates are idle, it is a nearest one. *)
Theorem X8_selected_is_no_farther_than_any_idle (floor : Z) (direction : Direction)
    (store : list Elevator) (p0 : nat) (rest : list nat) (e0 : Elevator) (p : nat) :
  store !! p0 = Some e0 ->
  NearestElevatorStrategy floor direction (p0 :: rest) store = Done (Some p) ->
  exists e,
    store !! p = Some e /\
    distance floor e <= distance floor e0 /\
    (forall q eq, q ∈ p0 :: rest -> store !! q = Some eq -> state eq = IDLE ->
       distance floor e <= distance floor eq).
Proof.
  intros Hp0 Hsel.
  destruct (NearestElevatorStrategy_inv _ _ _ _ _ _ _ Hp0 Hsel) as (best' & Hrun & <-).
  destruct (select_loop_beats_idle _ _ _ _ _ _ Hrun) as [Hle Hall].
  rewrite Forall_forall in Hall.
  destruct (select_loop_eligible _ _ _ _ _ _ Hrun)
    as [->|(_ & _ & e & He & Hd & _)]; simpl in *.
  - exists e0. split; [exact Hp0|]. split; [lia|]. intros q eq Hq. apply Hall. exact Hq.
  - exists e. split; [exact He|]. rewrite <- Hd. split; [exact Hle|].
    intros q eq Hq. apply Hall. exact Hq.
Qed.

Lemma X8_selected_is_no_farther_than_any_idle_witness :
  exists e,
    [mkElevator 1 9 IDLE []; mkElevator 2 4 IDLE []; mkElevator 3 2 MOVING_UP []] !! 1%nat
      = Some e /\
    distance 3 e <= distance 3 (mkElevator 1 9 IDLE []) /\
    (forall q eq, q ∈ [0; 1; 2]%nat ->
       [mkElevator 1 9 IDLE []; mkElevator 2 4 IDLE []; mkElevator 3 2 MOVING_UP []] !! q
         = Some eq ->
       state eq = IDLE -> distance 3 e <= distance 3 eq).
Proof.
  apply (X8_selected_is_no_farther_than_any_idle 3 DOWN
           [mkElevator 1 9 IDLE []; mkElevator 2 4 IDLE []; mkElevator 3 2 MOVING_UP []]
           0%nat [1; 2]%nat (mkElevator 1 9 IDLE []) 1%nat); reflexivity.
Defined.

(** X9: the strategy returns another elevator than the first candidate only
    if that elevator is strictly nearer to the floor of the call than the
    first one and is idle or moving toward the call: an elevator moving
    away, or moving against the direction of the call, is returned only as
    the first of the list. *)
Theorem X9_replacement_is_nearer_and_eligible (floor : Z) (direction : Direction)
    (store : list Elevator) (p0 : nat) (rest : list nat) (e0 : Elevator) (p : nat) :
  store !! p0 = Some e0 ->
  NearestElevatorStrategy floor direction (p0 :: rest) store = Done (Some p) ->
  p ≠ p0 ->
  exists e,
    store !! p = Some e /\ p ∈ rest /\
    distance floor e < distance floor e0 /\
    (state e = IDLE \/ moving_toward floor direction e).
Proof.
  intros Hp0 Hsel Hne.
  destruct (NearestElevatorStrategy_inv _ _ _ _ _ _ _ Hp0 Hsel) as (best' & Hrun & <-).
  destruct (select_loop_eligible _ _ _ _ _ _ Hrun)
    as [->|(Hin & Hlt & e & He & Hd & Hel)]; simpl in *; [congruence|].
  exists e. split; [exact He|]. split.
  - apply elem_of_cons in Hin as [Heq|Hin]; [congruence|exact Hin].
  - split; [lia|exact Hel].
Qed.

Lemma X9_replacement_is_nearer_and_eligible_witness :
  exists e,
    [mkElevator 1 9 IDLE []; mkElevator 2 4 MOVING_DOWN []; mkElevator 3 1 MOVING_UP []]
      !! 2%nat = Some e /\
    2%nat ∈ [1; 2]%nat /\
    distance 3 e < distance 3 (mkElevator 1 9 IDLE []) /\
    (state e = IDLE \/ moving_toward 3 UP e).
Proof.
  apply (X9_replacement_is_nearer_and_eligible 3 UP
           [mkElevator 1 9 IDLE []; mkElevator 2 4 MOVING_DOWN []; mkElevator 3 1 MOVING_UP []]
           0%nat [1; 2]%nat (mkElevator 1 9 IDLE []) 2%nat);
    [reflexivity|reflexivity|discriminate].
Defined.

(** X10: the first candidate is returned unless some candidate is strictly
    nearer: when every candidate is at least as far from the floor of the
    call as the first one, the first one is selected whatever the states
    and the direction; so is the only candidate of a list of one. *)
Theorem X10_first_candidate_wins_ties (floor : Z) (direction : Direction)
    (store : list Elevator) (p0 : nat) (rest : list nat) (e0 : Elevator) :
  store !! p0 = Some e0 ->
  Forall (fun q => exists e, store !! q = Some e /\
            distance floor e0 <= distance floor e) rest ->
  NearestElevatorStrategy floor direction (p0 :: rest) store = Done (Some p0).
Proof.
  intros Hp0 Hrest. rewrite (NearestElevatorStrategy_unfold _ _ _ _ _ _ Hp0).
  rewrite (select_loop_keep store floor direction (p0 :: rest) (p0, distance floor e0));
    [reflexivity|].
  constructor; [|exact Hrest]. exists e0. split; [exact Hp0|simpl; lia].
Qed.

Lemma X10_first_candidate_wins_ties_witness :
  NearestElevatorStrategy 2 UP [0; 1]%nat (elevator_store main_World_2) = Done (Some 0%nat).
Proof.
  apply (X10_first_candidate_wins_ties 2 UP (elevator_store main_World_2)
           0%nat [1%nat] (mkElevator 1 3 IDLE [])).
  - reflexivity.
  - repeat constructor. eexists. split; [reflexivity|]. vm_compute. discriminate.
Defined.

Lemma select_loop_direction (store : list Elevator) (floor : Z) (d1 d2 : Direction)
    (l : list nat) : forall best,
  Forall (fun q => exists e, store !! q = Some e /\ state e = IDLE) l ->
  select_loop store floor d1 l best = select_loop store floor d2 l best.
Proof.
  induction l as [|p l IH]; intros best Hall; simpl; [reflexivity|].
  apply Forall_cons in Hall as [(e & Hp & Hidle) Hall].
  rewrite !(select_body_run _ _ _ _ _ _ Hp).
  assert (forall d, up_branch floor d (snd best) e = false) as Hup
    by (intros d; unfold up_branch; apply bool_decide_eq_false_2; rewrite Hidle;
        intros (_ & H & _); discriminate).
  assert (forall d, down_branch floor d (snd best) e = false) as Hdown
    by (intros d; unfold down_branch; apply bool_decide_eq_false_2; rewrite Hidle;
        intros (_ & H & _); discriminate).
  rewrite !Hup, !Hdown. simpl. apply IH. exact Hall.
Qed.

(** X11: with only idle candidates the direction of the call plays no part
    in the selection. *)
Theorem X11_direction_ignored_among_idle (floor : Z) (d1 d2 : Direction)
    (store : list Elevator) (candidates : list nat) :
  Forall (fun q => exists e, store !! q = Some e /\ state e = IDLE) candidates ->
  NearestElevatorStrategy floor d1 candidates store =
  NearestElevatorStrategy floor d2 candidates store.
Proof.
  intros Hall. destruct candidates as [|p0 rest]; [reflexivity|].
  pose proof Hall as Hall'. apply Forall_cons in Hall' as [(e0 & Hp0 & _) _].
  rewrite !(NearestElevatorStrategy_unfold _ _ _ _ _ _ Hp0).
  rewrite (select_loop_direction store floor d1 d2 _ _ Hall). reflexivity.
Qed.

Lemma X11_direction_ignored_among_idle_witness :
  NearestElevatorStrategy 2 UP [0; 1]%nat (elevator_store main_World_1) =
  NearestElevatorStrategy 2 DOWN [0; 1]%nat (elevator_store main_World_1).
Proof.
  apply (X11_direction_ignored_among_idle 2 UP DOWN (elevator_store main_World_1)
           [0; 1]%nat).
  repeat constructor; eexists; split; reflexivity.
Defined.

(** ** What a notification touches *)

Lemma observer_labels (store : list OuterPanel) (obs : list nat) :
  Forall (fun p => is_Some (store !! p)) obs ->
  exists labels, Forall2 (fun p l => this_floor <$> store !! p = Some l) obs labels.
Proof.
  induction 1 as [|p obs [x Hp] _ (labels & IH)].
  - exists []. constructor.
  - exists (this_floor x :: labels). constructor; [rewrite Hp; reflexivity|exact IH].
Qed.

(** X12: [notifyObservers] changes nothing but the floor displayed by the
    registered panels: the elevators and the manager are as before, a
    panel that is not registered is as before, and a registered panel
    keeps its own floor; one line is written per registration, none with
    an empty list of observers. *)
Theorem X12_notification_touches_only_displays (floor : Z) (st : StateType) (w : World) :
  Forall (fun p => is_Some (panel_store w !! p)) (observers (manager w)) ->
  exists w' out,
    ElevatorManager_notifyObservers floor st w = Done (tt, w', out) /\
    elevator_store w' = elevator_store w /\
    manager w' = manager w /\
    length out = length (observers (manager w)) /\
    (forall q x, panel_store w !! q = Some x ->
       panel_store w' !! q =
       Some (if bool_decide (q ∈ observers (manager w))
             then mkOuterPanel (this_floor x) floor (currentDirection x)
             else x)).
Proof.
  intros Hvalid.
  destruct (observer_labels _ _ Hvalid) as (labels & Hlabels).
  destruct (notify_loop floor st (observers (manager w)) w labels Hlabels)
    as (w' & Hrun & Hel & Hman & Hpan).
  exists w', ((fun l => PanelUpdated l floor st) <$> labels).
  split; [|split; [exact Hel|split; [exact Hman|split; [|exact Hpan]]]].
  - unfold ElevatorManager_notifyObservers. run_cmd. rewrite Hrun. reflexivity.
  - rewrite length_fmap. symmetry. eapply Forall2_length. exact Hlabels.
Qed.

Lemma X12_notification_touches_only_displays_witness :
  exists w' out,
    ElevatorManager_notifyObservers 3 IDLE
      (mkWorld (elevator_store main_World_1) (panel_store main_World)
         (mkElevatorManager [0; 1]%nat [0; 2]%nat [0; 2]%nat NearestElevatorStrategy)) =
      Done (tt, w', out) /\
    elevator_store w' = elevator_store main_World_1 /\
    manager w' = mkElevatorManager [0; 1]%nat [0; 2]%nat [0; 2]%nat NearestElevatorStrategy /\
    length out = length [0; 2]%nat /\
    (forall q x, panel_store main_World !! q = Some x ->
       panel_store w' !! q =
       Some (if bool_decide (q ∈ [0; 2]%nat)
             then mkOuterPanel (this_floor x) 3 (currentDirection x)
             else x)).
Proof.
  apply (X12_notification_touches_only_displays 3 IDLE
           (mkWorld (elevator_store main_World_1) (panel_store main_World)
              (mkElevatorManager [0; 1]%nat [0; 2]%nat [0; 2]%nat NearestElevatorStrategy))).
  repeat constructor; eexists; reflexivity.
Defined.

(** ** Replacing the strategy *)



(** ** The floors of a trip *)

Lemma trip_floors_elem (a b x : Z) :
  x ∈ trip_floors a b -> (a < x <= b) \/ (b <= x < a).
Proof.
  unfold trip_floors. intros Hx.
  apply list_elem_of_fmap in Hx as (k & -> & Hk). apply elem_of_seqZ in Hk.
  destruct (Z.lt_trichotomy a b) as [Hlt|[->|Hgt]].
  - rewrite Z.sgn_pos by lia. lia.
  - rewrite Z.sub_diag in Hk. simpl in Hk. lia.
  - rewrite Z.sgn_neg by lia. lia.
Qed.

Lemma trip_floors_NoDup (a b : Z) : NoDup (trip_floors a b).
Proof.
  destruct (decide (a = b)) as [->|Hne].
  - rewrite trip_floors_same. constructor.
  - unfold trip_floors.
    assert (Inj (=) (=) (fun k => a + k * Z.sgn (b - a))) as Hinj.
    { intros k1 k2 Hk. destruct (Z.lt_trichotomy a b) as [Hlt|[->|Hgt]].
      - rewrite Z.sgn_pos in Hk by lia. lia.
      - congruence.
      - rewrite Z.sgn_neg in Hk by lia. lia. }
    apply (NoDup_fmap_2 _). apply NoDup_seqZ.
Qed.

Lemma trip_floors_last (a b : Z) : a ≠ b -> last (trip_floors a b) = Some b.
Proof.
  intros Hne. unfold trip_floors. rewrite fmap_last, last_lookup, length_seqZ.
  rewrite lookup_seqZ_lt by lia. simpl. f_equal.
  destruct (Z.lt_trichotomy a b) as [Hlt|[->|Hgt]]; [|congruence|].
  - rewrite Z.sgn_pos by lia. lia.
  - rewrite Z.sgn_neg by lia. lia.
Qed.

(** X14: the loop of [simulateMovement] never overshoots and never turns
    back: the floors it writes lie between the floor of departure
    (excluded) and the target (included), none is written twice, the last
    one is the target, and the elevator is left at the target. *)
Theorem X14_trip_stays_between_its_ends (fuel : nat) (targetFloor : Z) (e : Elevator) :
  Int.int_range (currentFloor e) -> Int.int_range targetFloor ->
  (Z.to_nat (Z.abs (targetFloor - currentFloor e)) <= fuel)%nat ->
  exists floors,
    simulateMovement_loop fuel targetFloor e =
      Done (tt, set_currentFloor targetFloor e, ElevatorAtFloor (id e) <$> floors) /\
    NoDup floors /\
    Forall (fun x => (currentFloor e < x <= targetFloor) \/
                     (targetFloor <= x < currentFloor e)) floors /\
    Forall Int.int_range floors /\
    (currentFloor e ≠ targetFloor -> last floors = Some targetFloor).
Proof.
  intros Hf Ht Hfuel. exists (trip_floors (currentFloor e) targetFloor).
  split; [apply simulateMovement_loop_reaches; assumption|].
  split; [apply trip_floors_NoDup|]. split; [|split].
  - apply Forall_forall. intros x. apply trip_floors_elem.
  - apply Forall_forall. intros x Hx. apply trip_floors_elem in Hx.
    unfold Int.int_range in *. lia.
  - apply trip_floors_last.
Qed.

Lemma X14_trip_stays_between_its_ends_witness :
  exists floors,
    simulateMovement_loop 4 2 (mkElevator 1 6 MOVING_DOWN [2]) =
      Done (tt, set_currentFloor 2 (mkElevator 1 6 MOVING_DOWN [2]),
            ElevatorAtFloor (id (mkElevator 1 6 MOVING_DOWN [2])) <$> floors) /\
    NoDup floors /\
    Forall (fun x => (currentFloor (mkElevator 1 6 MOVING_DOWN [2]) < x <= 2) \/
                     (2 <= x < currentFloor (mkElevator 1 6 MOVING_DOWN [2]))) floors /\
    Forall Int.int_range floors /\
    (currentFloor (mkElevator 1 6 MOVING_DOWN [2]) ≠ 2 -> last floors = Some 2).
Proof.
  apply (X14_trip_stays_between_its_ends 4 2 (mkElevator 1 6 MOVING_DOWN [2])).
  - unfold Int.int_range, Int.INT_MIN, Int.INT_MAX; simpl; lia.
  - unfold Int.int_range, Int.INT_MIN, Int.INT_MAX; simpl; lia.
  - simpl; lia.
Defined.

(** ** Names of the states *)

(** X15: [getStateName] gives the three states three different names, none
    of them the name of the [default] label. *)
Theorem X15_state_names_are_distinct (s1 s2 : StateType) :
  (getStateName s1 = getStateName s2 <-> s1 = s2) /\
  getStateName s1 ≠ "UNKNOWN"%string.
Proof.
  split; [split|].
  - destruct s1, s2; simpl; intros H; (reflexivity || discriminate H).
  - intros ->. reflexivity.
  - destruct s1; discriminate.
Qed.

(** ** Empty queues *)

(** X16: on an empty queue [processQueue] returns at once, with nothing
    written and nothing changed, and so never reaches the [pop] of
    [simulateMovement]; [simulateMovement] itself, called on an empty
    queue, moves the elevator to the target and then pops the empty queue,
    which is undefined. *)
Theorem X16_empty_queue (fuel : nat) (targetFloor : Z) (e : Elevator) :
  floorQueue e = [] ->
  Int.int_range (currentFloor e) -> Int.int_range targetFloor ->
  (Z.to_nat (Z.abs (targetFloor - currentFloor e)) <= fuel)%nat ->
  Elevator_processQueue fuel e = Done (tt, e, []) /\
  Elevator_simulateMovement fuel targetFloor e = Undefined.
Proof.
  intros Hq Hf Ht Hfuel. split.
  - unfold Elevator_processQueue. run_cmd. rewrite Hq. reflexivity.
  - rewrite simulateMovement_unfold, simulateMovement_loop_reaches by assumption.
    destruct e as [i f s q]; simpl in *; subst q. reflexivity.
Qed.

Lemma X16_empty_queue_witness :
  Elevator_processQueue 2 (mkElevator 1 1 IDLE []) = Done (tt, mkElevator 1 1 IDLE [], []) /\
  Elevator_simulateMovement 2 3 (mkElevator 1 1 IDLE []) = Undefined.
Proof.
  apply (X16_empty_queue 2 3 (mkElevator 1 1 IDLE [])).
  - reflexivity.
  - unfold Int.int_range, Int.INT_MIN, Int.INT_MAX; simpl; lia.
  - unfold Int.int_range, Int.INT_MIN, Int.INT_MAX; simpl; lia.
  - simpl; lia.
Defined.

(** ** Requests behind a blocked head *)

Lemma blocked_requests_pile_up (fuel : nat) (i f : Z) (s : StateType) (gs : list Z) :
  forall q : list Z,
  for_each gs (Elevator_addToQueue fuel) (mkElevator i f s (f :: q)) =
  Done (tt, mkElevator i f s (f :: q ++ gs),
        gs ≫= (fun g => [ElevatorReceived i g; ElevatorProcessing i f])).
Proof.
  induction gs as [|g gs IH]; intros q.
  - simpl. rewrite app_nil_r. reflexivity.
  - change (for_each (g :: gs) (Elevator_addToQueue fuel))
      with (cmd_bind (fun _ => for_each gs (Elevator_addToQueue fuel))
              (Elevator_addToQueue fuel g)).
    unfold cmd_bind. rewrite head_at_current_floor_blocks, IH.
    rewrite <- app_assoc. reflexivity.
Qed.

(** X17: behind a head that is the floor the elevator stands at, no request
    is ever served: any sequence of requests leaves the elevator at its
    floor and in its state, with all of them appended to the queue in the
    order of arrival, and two lines written for each (the request, and the
    head being processed again). *)
Theorem X17_requests_pile_up_behind_blocked_head (fuel : nat) (e : Elevator) (gs : list Z) :
  blocked e ->
  for_each gs (Elevator_addToQueue fuel) e =
  Done (tt, set_floorQueue (floorQueue e ++ gs) e,
        gs ≫= (fun g => [ElevatorReceived (id e) g;
                          ElevatorProcessing (id e) (currentFloor e)])).
Proof.
  destruct e as [i f s [|h q]]; unfold blocked; simpl; [discriminate|].
  intros [= ->]. apply blocked_requests_pile_up.
Qed.

Lemma X17_requests_pile_up_behind_blocked_head_witness :
  for_each [5; 2] (Elevator_addToQueue 9) (mkElevator 2 1 IDLE [1]) =
  Done (tt, set_floorQueue ([1] ++ [5; 2]) (mkElevator 2 1 IDLE [1]),
        [5; 2] ≫= (fun g => [ElevatorReceived 2 g; ElevatorProcessing 2 1])).
Proof.
  apply (X17_requests_pile_up_behind_blocked_head 9 (mkElevator 2 1 IDLE [1]) [5; 2]).
  reflexivity.
Defined.

(** ** Calls that are served *)

(** X18: a call that the strategy assigns to an idle elevator with an empty
    queue standing at another floor is served before the call returns: the
    elevator is at the floor of the call, idle, with an empty queue; it has
    written one line for each storey between the two floors, between the
    two changes of state; the other elevators, the panels and the manager
    are as before. *)
Theorem X18_call_to_another_floor_is_served (fuel : nat) (floor : Z) (direction : Direction)
    (w : World) (p : nat) (i f : Z) :
  selectionStrategy (manager w) floor direction
    (elevators (manager w)) (elevator_store w) = Done (Some p) ->
  elevator_store w !! p = Some (mkElevator i f IDLE []) ->
  Int.int_range f -> Int.int_range floor -> floor ≠ f ->
  (Z.to_nat (Z.abs (floor - f)) <= fuel)%nat ->
  ElevatorManager_addToQueue fuel floor direction w =
  Done (tt,
        mkWorld (<[p:=mkElevator i floor IDLE []]> (elevator_store w))
          (panel_store w) (manager w),
        [RequestReceived floor; ElevatorReceived i floor; ElevatorProcessing i floor;
         StateChanged i (trip_state f floor)] ++
        (ElevatorAtFloor i <$> trip_floors f floor) ++ [StateChanged i IDLE]) /\
  length (trip_floors f floor) = Z.to_nat (Z.abs (floor - f)).
Proof.
  intros Hsel Hp Hf Hfloor Hne Hfuel. split; [|apply length_trip_floors].
  eapply ElevatorManager_addToQueue_assigned; [exact Hsel|exact Hp|].
  apply Elevator_addToQueue_trip; assumption.
Qed.

Lemma X18_call_to_another_floor_is_served_witness :
  ElevatorManager_addToQueue 1 2 UP main_World_2 =
  Done (tt,
        mkWorld (<[0%nat:=mkElevator 1 2 IDLE []]> (elevator_store main_World_2))
          (panel_store main_World_2) (manager main_World_2),
        [RequestReceived 2; ElevatorReceived 1 2; ElevatorProcessing 1 2;
         StateChanged 1 (trip_state 3 2)] ++
        (ElevatorAtFloor 1 <$> trip_floors 3 2) ++ [StateChanged 1 IDLE]) /\
  length (trip_floors 3 2) = Z.to_nat (Z.abs (2 - 3)).
Proof.
  apply (X18_call_to_another_floor_is_served 1 2 UP main_World_2 0%nat 1 3).
  - reflexivity.
  - reflexivity.
  - unfold Int.int_range, Int.INT_MIN, Int.INT_MAX; lia.
  - unfold Int.int_range, Int.INT_MIN, Int.INT_MAX; lia.
  - lia.
  - simpl; lia.
Defined.
